(** * FMI4cpp: the FMI 2.0 modelDescription.xml parser

    A shallow embedding of
    [src/fmi4cpp/fmi2/xml/ModelDescriptionParser.cpp] together with the part
    of [boost::property_tree] the parser is written against, and the
    properties of the parser that the specification states.

    Layout of the development:
    - [Result]    the exceptions the parser can raise, as an error monad;
    - [Text]      character classes and the [boost::split] tokenizer;
    - [Stream]    formatted extraction ([operator>>]) of integers and booleans;
    - [PTree]     the property tree, its paths and the [get] family;
    - [Xml]       the XML tree and [read_xml];
    - [Model]     the records the parser fills in;
    - [Parser]    the functions of ModelDescriptionParser.cpp, in file order;
    - [Spec]      the vocabulary the properties are stated in;
    - [Examples]  the documents the properties are tried on;
    - the properties, from the loops and the tokenizer up to whole
      documents.

    The parser is modelled from the tree of the document on: reading the
    file and the concrete syntax of XML are outside.  Floating-point values
    and the lexers of the three enumerations are parameters ([Externals]). *)

From Stdlib Require Import String Ascii List ZArith Lia Bool Permutation.
From Stdlib Require DecimalString DecimalNat DecimalFacts.
Import ListNotations.

Set Warnings "-register-all".

Local Open Scope string_scope.
Local Open Scope list_scope.

(* ------------------------------------------------------------------ *)
(** ** Exceptions as results *)

Module Result.

(** The three exception classes that can leave the parser:
    [ptree_bad_path] (thrown by [get] / [get_child] when the path does not
    exist, carrying the path), [ptree_bad_data] (thrown by [get] when the
    translator rejects the data, carrying the data) and the
    [std::runtime_error] the parser throws itself. *)
Inductive error : Type :=
| ptree_bad_path (path : string)
| ptree_bad_data (data : string)
| runtime_error (what : string).

Inductive result (A : Type) : Type :=
| OK (a : A)
| Err (e : error).

Arguments OK {A} a.
Arguments Err {A} e.

Definition bind {A B : Type} (m : result A) (k : A -> result B) : result B :=
  match m with
  | OK a => k a
  | Err e => Err e
  end.

(** Running a fallible function over a list, left to right, stopping at the
    first failure. *)
Fixpoint mapM {A B : Type} (f : A -> result B) (l : list A) : result (list B) :=
  match l with
  | [] => OK []
  | x :: l' =>
      bind (f x) (fun y => bind (mapM f l') (fun ys => OK (y :: ys)))
  end.

End Result.

Import Result.

Notation "'let*' x ':=' m 'in' k" := (bind m (fun x => k))
  (at level 10, x name, m at level 100, k at level 200).

(* ------------------------------------------------------------------ *)
(** ** Characters and tokenizing *)

Module Text.

Definition chars (s : string) : list ascii := list_ascii_of_string s.

(** [std::isspace] in the classic locale. *)
Definition isspace (c : ascii) : bool :=
  let n := nat_of_ascii c in
  (n =? 32)%nat || ((9 <=? n)%nat && (n <=? 13)%nat).

Definition isdigit (c : ascii) : bool :=
  let n := nat_of_ascii c in
  (48 <=? n)%nat && (n <=? 57)%nat.

Definition digit_value (c : ascii) : Z := Z.of_nat (nat_of_ascii c) - 48.

(** [boost::split(store, str, pred)] with the default
    [token_compress_off]: the input is cut at every character satisfying
    [pred]; adjacent separators, and separators at either end, delimit empty
    tokens, and the empty input is one empty token. *)
Fixpoint split (pred : ascii -> bool) (str : string) : list string :=
  match str with
  | EmptyString => [EmptyString]
  | String c rest =>
      if pred c then EmptyString :: split pred rest
      else match split pred rest with
           | [] => [String c EmptyString]
           | tok :: toks => String c tok :: toks
           end
  end.

Fixpoint count (pred : ascii -> bool) (str : string) : nat :=
  match str with
  | EmptyString => 0
  | String c rest => (if pred c then 1 else 0) + count pred rest
  end.

Fixpoint forallb_string (pred : ascii -> bool) (str : string) : bool :=
  match str with
  | EmptyString => true
  | String c rest => pred c && forallb_string pred rest
  end.

(** [is_infix p s]: [p] occurs in [s] as a contiguous substring. *)
Fixpoint is_infix (p s : string) : bool :=
  String.prefix p s ||
  match s with
  | EmptyString => false
  | String _ rest => is_infix p rest
  end.

End Text.

(* ------------------------------------------------------------------ *)
(** ** Formatted extraction from a stream

    The remaining input of a [std::istringstream] is a list of characters.
    [operator>>] into an arithmetic type skips leading white space, accepts an
    optional sign and a maximal run of decimal digits, and sets [failbit]
    when there is no digit or the value does not fit the type.  An extraction
    returns the value and the input left, or [None] for [failbit]. *)

Module Stream.

Import Text.

Fixpoint skipws (s : list ascii) : list ascii :=
  match s with
  | c :: rest => if isspace c then skipws rest else s
  | [] => []
  end.

(** Maximal run of digits: the number read so far, how many digits were
    taken, and the input after them. *)
Fixpoint digits (acc : Z) (taken : nat) (s : list ascii) : Z * nat * list ascii :=
  match s with
  | c :: rest =>
      if isdigit c then digits (acc * 10 + digit_value c) (S taken) rest
      else (acc, taken, s)
  | [] => (acc, taken, [])
  end.

Definition sign (s : list ascii) : bool * list ascii :=
  match s with
  | c :: rest =>
      if Ascii.eqb c "-" then (true, rest)
      else if Ascii.eqb c "+" then (false, rest)
      else (false, s)
  | [] => (false, [])
  end.

(** [is >> u] for an unsigned type of [bits] bits.  A leading minus sign is
    accepted and the magnitude negated modulo [2^bits]; a magnitude beyond
    the maximum is a failure. *)
Definition extract_unsigned (bits : Z) (s : list ascii) : option (Z * list ascii) :=
  let '(neg, s1) := sign (skipws s) in
  let '(v, taken, rest) := digits 0 0 s1 in
  match taken with
  | O => None
  | S _ =>
      if (v <? 2 ^ bits)%Z
      then Some (if neg then ((2 ^ bits - v) mod 2 ^ bits)%Z else v, rest)
      else None
  end.

(** [is >> i] for a signed type of [bits] bits. *)
Definition extract_signed (bits : Z) (s : list ascii) : option (Z * list ascii) :=
  let '(neg, s1) := sign (skipws s) in
  let '(v, taken, rest) := digits 0 0 s1 in
  match taken with
  | O => None
  | S _ =>
      let x := if neg then (- v)%Z else v in
      if ((- 2 ^ (bits - 1) <=? x) && (x <? 2 ^ (bits - 1)))%Z
      then Some (x, rest)
      else None
  end.

Fixpoint strip_prefix (p s : list ascii) : option (list ascii) :=
  match p, s with
  | [], _ => Some s
  | a :: p', b :: s' => if Ascii.eqb a b then strip_prefix p' s' else None
  | _ :: _, [] => None
  end.

(** [is >> std::boolalpha >> b]. *)
Definition extract_boolalpha (s : list ascii) : option (bool * list ascii) :=
  let s1 := skipws s in
  match strip_prefix (chars "true") s1 with
  | Some rest => Some (true, rest)
  | None =>
      match strip_prefix (chars "false") s1 with
      | Some rest => Some (false, rest)
      | None => None
      end
  end.

(** Boolean extraction as [boost::property_tree] customizes it: first the
    numeric form, where only 0 and 1 are values, and when that fails the
    word form, tried on what the failed attempt left unread (as in GNU
    libstdc++, a sign is consumed even when no digit follows it). *)
Definition extract_bool (s : list ascii) : option (bool * list ascii) :=
  let '(neg, s1) := sign (skipws s) in
  let '(v, taken, rest) := digits 0 0 s1 in
  match taken with
  | O => extract_boolalpha s1
  | S _ =>
      if (v =? 0)%Z then Some (false, rest)
      else if (v =? 1)%Z && negb neg then Some (true, rest)
      else extract_boolalpha rest
  end.

(** The stream translator of [boost::property_tree]: the whole datum must
    be one value, white space around it allowed. *)
Definition translate {A : Type} (extract : list ascii -> option (A * list ascii))
    (datum : string) : option A :=
  match extract (chars datum) with
  | Some (v, rest) =>
      match skipws rest with
      | [] => Some v
      | _ :: _ => None
      end
  | None => None
  end.

End Stream.

(* ------------------------------------------------------------------ *)
(** ** The property tree *)

Module PTree.

Import Text Stream.

(** [boost::property_tree::ptree]: a datum and an ordered list of keyed
    children; keys may repeat. *)
Inductive ptree : Type :=
  Node { data : string; children : list (string * ptree) }.

Definition empty : ptree := Node "" [].

Definition push_back (pt : ptree) (kv : string * ptree) : ptree :=
  Node (data pt) (children pt ++ [kv]).

(** [ptree::find]: the first child with the key. *)
Definition find (key : string) (pt : ptree) : option ptree :=
  match List.find (fun kv => String.eqb (fst kv) key) (children pt) with
  | Some kv => Some (snd kv)
  | None => None
  end.

(** The fragments of a path, as [string_path::reduce] cuts them at the
    separator ['.']: the empty path has no fragment and a final separator
    opens none. *)
Fixpoint fragments (path : string) : list string :=
  match path with
  | EmptyString => []
  | String c rest =>
      if Ascii.eqb c "." then EmptyString :: fragments rest
      else match fragments rest with
           | [] => [String c EmptyString]
           | f :: fs => String c f :: fs
           end
  end.

(** [ptree::walk_path]. *)
Fixpoint walk_path (p : list string) (pt : ptree) : option ptree :=
  match p with
  | [] => Some pt
  | fragment :: p' =>
      match find fragment pt with
      | Some el => walk_path p' el
      | None => None
      end
  end.

Definition get_child_optional (path : string) (pt : ptree) : option ptree :=
  walk_path (fragments path) pt.

Definition get_child (path : string) (pt : ptree) : result ptree :=
  match get_child_optional path pt with
  | Some c => OK c
  | None => Err (ptree_bad_path path)
  end.

(** A translator turns a datum into a value, or rejects it. *)
Definition translator (A : Type) : Type := string -> option A.

(** The translators the parser uses: the identity on strings, and the
    stream translator at [bool], at [unsigned int] and [fmi2ValueReference]
    (32 bits), at [size_t] (64 bits) and at [int] (32 bits). *)
Definition tr_string : translator string := fun s => Some s.
Definition tr_bool : translator bool := translate extract_bool.
Definition tr_unsigned : translator Z := translate (extract_unsigned 32).
Definition tr_size_t : translator Z := translate (extract_unsigned 64).
Definition tr_int : translator Z := translate (extract_signed 32).

(** [node.get_optional<T>(path)]: absent when the path does not exist, and
    also when the translator rejects the datum. *)
Definition get_optional {A : Type} (tr : translator A) (path : string)
    (pt : ptree) : option A :=
  match get_child_optional path pt with
  | Some c => tr (data c)
  | None => None
  end.

(** [node.get<T>(path)]: throws when the path does not exist or the
    translator rejects the datum. *)
Definition get {A : Type} (tr : translator A) (path : string)
    (pt : ptree) : result A :=
  let* c := get_child path pt in
  match tr (data c) with
  | Some v => OK v
  | None => Err (ptree_bad_data (data c))
  end.

(** [node.get<T>(path, default_value)], which is
    [get_optional<T>(path).get_value_or(default_value)]. *)
Definition get_or {A : Type} (tr : translator A) (path : string)
    (default_value : A) (pt : ptree) : A :=
  match get_optional tr path pt with
  | Some v => v
  | None => default_value
  end.

(** The children of a list that carry a given key, in order. *)
Definition select (key : string) (vs : list (string * ptree)) : list ptree :=
  map snd (filter (fun v => String.eqb (fst v) key) vs).

End PTree.

(* ------------------------------------------------------------------ *)
(** ** XML trees and [read_xml] *)

Module Xml.

Import PTree.

(** The tree a well-formed document denotes: elements with their
    attributes in document order, character data, and comments. *)
Inductive node : Type :=
| Element (name : string) (attributes : list (string * string)) (content : list node)
| Data (text : string)
| Comment (text : string).

(** A document: the nodes at top level (the root element, and the comments
    around it). *)
Definition document : Type := list node.

Definition xmlattr : string := "<xmlattr>".
Definition xmlcomment : string := "<xmlcomment>".

Definition attribute_tree (attributes : list (string * string)) : list (string * ptree) :=
  match attributes with
  | [] => []
  | _ :: _ => [(xmlattr, Node "" (map (fun a => (fst a, Node (snd a) [])) attributes))]
  end.

(** [read_xml_node] of boost's xml_parser_read_rapidxml.hpp with the flags
    [read_xml] passes by default: an element is appended to [pt] as a child
    keyed by its name, its attributes collected under a first child
    [<xmlattr>]; character data is appended to the datum of [pt]; a comment
    becomes a child [<xmlcomment>]. *)
Fixpoint read_xml_node (n : node) (pt : ptree) : ptree :=
  match n with
  | Element name attributes content =>
      let pt_node :=
        fold_left (fun acc child => read_xml_node child acc) content
                  (Node "" (attribute_tree attributes)) in
      push_back pt (name, pt_node)
  | Data text => Node (data pt ++ text) (children pt)
  | Comment text => push_back pt (xmlcomment, Node text [])
  end.

Definition read_nodes (content : list node) (pt : ptree) : ptree :=
  fold_left (fun acc child => read_xml_node child acc) content pt.

Definition read_xml (doc : document) : ptree := read_nodes doc empty.

(** The subtree an element contributes to its parent. *)
Definition element_tree (attributes : list (string * string)) (content : list node) : ptree :=
  read_nodes content (Node "" (attribute_tree attributes)).

(** Names as rapidxml reads them: an element name runs up to white space,
    ['/'], ['>'], ['?'] or NUL. *)
Definition name_char (c : ascii) : bool :=
  negb (existsb (Nat.eqb (nat_of_ascii c)) [0; 9; 10; 13; 32; 47; 62; 63]%nat).

Definition name_ok (name : string) : bool :=
  negb (String.eqb name "") && Text.forallb_string name_char name.

(** The element children of a node list carry well-formed names. *)
Definition names_ok (content : list node) : Prop :=
  forall name attributes sub,
    In (Element name attributes sub) content -> name_ok name = true.

(** The value of an attribute of an element. *)
Definition attribute (k : string) (attributes : list (string * string)) : option string :=
  option_map snd (List.find (fun a => String.eqb (fst a) k) attributes).

(** The children one node of the content gives the tree of its parent. *)
Definition node_children (n : node) : list (string * ptree) :=
  match n with
  | Element name attributes content => [(name, element_tree attributes content)]
  | Data _ => []
  | Comment text => [(xmlcomment, Node text [])]
  end.

(** The subtrees of the child elements with a given tag, in document
    order. *)
Definition elements_named (tag : string) (content : list node) : list ptree :=
  flat_map (fun n =>
              match n with
              | Element name attributes sub =>
                  if String.eqb name tag then [element_tree attributes sub] else []
              | _ => []
              end) content.

(** The tags of the child elements, in document order. *)
Definition element_names (content : list node) : list string :=
  flat_map (fun n => match n with Element name _ _ => [name] | _ => [] end) content.

Definition not_element (n : node) : bool :=
  match n with Element _ _ _ => false | _ => true end.

End Xml.

(* ------------------------------------------------------------------ *)
(** ** The data model *)

Module Model.

Import PTree.

(** The three enumerations of a scalar variable, with their lexemes in
    FMI 2.0. *)
Inductive Causality : Type :=
| causality_parameter | causality_calculatedParameter | causality_input
| causality_output | causality_local | causality_independent
| causality_unspecified.

Inductive Variability : Type :=
| variability_constant | variability_fixed | variability_tunable
| variability_discrete | variability_continuous | variability_unspecified.

Inductive Initial : Type :=
| initial_exact | initial_approx | initial_calculated | initial_unspecified.

(** What the parser takes from outside this translation unit and the
    theorems do not depend on: the floating-point type with its stream
    translator, and the lexers of the three enumerations. *)
Class Externals : Type := {
  double : Type;
  tr_double : translator double;
  parseCausality : string -> Causality;
  parseVariability : string -> Variability;
  parseInitial : string -> Initial
}.

(** Modelled from the spec: the tag constants [INTEGER_TYPE] ... of
    ScalarVariableAttribute.hpp are not in the sources at hand; the
    specification names the five tags. *)
Definition INTEGER_TYPE : string := "Integer".
Definition REAL_TYPE : string := "Real".
Definition STRING_TYPE : string := "String".
Definition BOOLEAN_TYPE : string := "Boolean".
Definition ENUMERATION_TYPE : string := "Enumeration".

Record SourceFile : Type := { file_name : string }.

Definition SourceFiles : Type := list SourceFile.

Record Unknown : Type := {
  index : Z;
  dependencies : option (list Z);
  dependenciesKind : option (list string)
}.

Record ModelStructure : Type := {
  outputs : list Unknown;
  derivatives : list Unknown;
  initialUnknowns : list Unknown
}.

Record FmuAttributes : Type := {
  modelIdentifier : string;
  needsExecutionTool : bool;
  canGetAndSetFMUstate : bool;
  canSerializeFMUstate : bool;
  providesDirectionalDerivative : bool;
  canNotUseMemoryManagementFunctions : bool;
  canBeInstantiatedOnlyOncePerProcess : bool;
  sourceFiles : SourceFiles
}.

Record CoSimulationAttributes : Type := {
  cs_fmu : FmuAttributes;
  maxOutputDerivativeOrder : Z;
  canInterpolateInputs : bool;
  canRunAsynchronuously : bool;
  canHandleVariableCommunicationStepSize : bool
}.

Record ModelExchangeAttributes : Type := {
  me_fmu : FmuAttributes;
  completedIntegratorStepNotNeeded : bool
}.

Record ScalarVariableAttribute (T : Type) : Type := {
  start : option T;
  declaredType : option string
}.

Record BoundedScalarVariableAttribute (T : Type) : Type := {
  bounded_base : ScalarVariableAttribute T;
  min : option T;
  max : option T;
  quantity : option string
}.

Arguments Build_ScalarVariableAttribute {T}.
Arguments start {T}.
Arguments declaredType {T}.
Arguments Build_BoundedScalarVariableAttribute {T}.
Arguments bounded_base {T}.
Arguments min {T}.
Arguments max {T}.
Arguments quantity {T}.

Definition IntegerAttribute : Type := BoundedScalarVariableAttribute Z.
Definition EnumerationAttribute : Type := BoundedScalarVariableAttribute Z.
Definition StringAttribute : Type := ScalarVariableAttribute string.
Definition BooleanAttribute : Type := ScalarVariableAttribute bool.

Record ScalarVariableBase : Type := {
  name : string;
  description : string;
  valueReference : Z;
  canHandleMultipleSetPerTimelnstant : bool;
  causality : Causality;
  variability : Variability;
  initial : Initial
}.

Section WithExternals.

Context {ext : Externals}.

Record DefaultExperiment : Type := {
  startTime : option double;
  stopTime : option double;
  stepSize : option double;
  tolerance : option double
}.

Record RealAttribute : Type := {
  real_bounded : BoundedScalarVariableAttribute double;
  nominal : option double;
  real_unit : option string;
  derivative : option Z;
  reinit : bool;
  unbounded : bool;
  relativeQuantity : bool
}.

(** The typed attribute of a scalar variable: one of five shapes. *)
Inductive TypedAttribute : Type :=
| Integer_ (a : IntegerAttribute)
| Real_ (a : RealAttribute)
| String_ (a : StringAttribute)
| Boolean_ (a : BooleanAttribute)
| Enumeration_ (a : EnumerationAttribute).

Record ScalarVariable : Type := {
  sv_base : ScalarVariableBase;
  sv_attribute : TypedAttribute
}.

Record ModelVariables : Type := { variables : list ScalarVariable }.

(** [modelVariables] and [modelStructure] are smart pointers, assigned
    from the [std::unique_ptr] the sub-parsers return: [None] is the null
    pointer a default-constructed [ModelDescriptionBase] holds. *)
Record ModelDescriptionBase : Type := {
  guid : string;
  fmiVersion : string;
  modelName : string;
  md_description : string;
  author : string;
  version : string;
  license : string;
  copyright : string;
  generationTool : string;
  generationDateAndTime : string;
  numberOfEventIndicators : Z;
  variableNamingConvention : string;
  defaultExperiment : option DefaultExperiment;
  modelVariables : option ModelVariables;
  modelStructure : option ModelStructure
}.

Record ModelDescription : Type := {
  base : ModelDescriptionBase;
  coSimulation : option CoSimulationAttributes;
  modelExchange : option ModelExchangeAttributes
}.

End WithExternals.

End Model.

(* ------------------------------------------------------------------ *)
(** ** The parser: ModelDescriptionParser.cpp *)

Module Parser.

Import Text Stream PTree Xml Model.

(** A range-based [for] over the children of a node whose body updates the
    local state and may throw. *)
Fixpoint for_each {S : Type} (body : string * ptree -> S -> result S)
    (vs : list (string * ptree)) (st : S) : result S :=
  match vs with
  | [] => OK st
  | v :: vs' => let* st' := body v st in for_each body vs' st'
  end.

Definition DEFAULT_VARIABLE_NAMING_CONVENTION : string := "flat".

Definition parseFile (node : ptree) : result SourceFile :=
  let* name := get tr_string "<xmlattr>.name" node in
  OK {| file_name := name |}.

Definition parseSourceFiles (node : ptree) (files : SourceFiles) : result SourceFiles :=
  for_each (fun v files =>
              if String.eqb (fst v) "File" then
                let* file := parseFile (snd v) in
                OK (files ++ [file])
              else OK files)
           (children node) files.

(** The loop [while (ss >> i) { store.push_back(i); ... ss.ignore(); }].
    Every round consumes a digit, so the length of the input bounds the
    number of rounds; [fuel] counts them. *)
Fixpoint parseUnknownDependencies_loop (fuel : nat) (ss : list ascii)
    (store : list Z) : list Z :=
  match fuel with
  | O => store
  | S fuel' =>
      match extract_unsigned 32 ss with
      | None => store
      | Some (i, rest) =>
          let store' := store ++ [i] in
          match rest with
          | c :: rest' =>
              if Ascii.eqb c "," || Ascii.eqb c " "
              then parseUnknownDependencies_loop fuel' rest' store'
              else parseUnknownDependencies_loop fuel' rest store'
          | [] => store'
          end
      end
  end.

Definition parseUnknownDependencies (str : string) (store : list Z) : list Z :=
  parseUnknownDependencies_loop (S (String.length str)) (chars str) store.

(** [boost::split] replaces the content of [store]. *)
Definition parseUnknownDependenciesKind (str : string) (store : list string) : list string :=
  split (fun c => Ascii.eqb c " ") str.

Definition parseUnknown (node : ptree) : result Unknown :=
  let* index := get tr_unsigned "<xmlattr>.index" node in
  let opt_dependencies := get_optional tr_string "<xmlattr>.dependencies" node in
  let dependencies :=
    match opt_dependencies with
    | Some str => Some (parseUnknownDependencies str [])
    | None => None
    end in
  let opt_dependenciesKind := get_optional tr_string "<xmlattr>.dependenciesKind" node in
  let dependenciesKind :=
    match opt_dependenciesKind with
    | Some str => Some (parseUnknownDependenciesKind str [])
    | None => None
    end in
  OK {| index := index;
        dependencies := dependencies;
        dependenciesKind := dependenciesKind |}.

Definition loadUnknowns (node : ptree) (vector : list Unknown) : result (list Unknown) :=
  for_each (fun v vector =>
              if String.eqb (fst v) "Unknown" then
                let* unknown := parseUnknown (snd v) in
                OK (vector ++ [unknown])
              else OK vector)
           (children node) vector.

(** The body of the loop of [parseModelStructure]; the state is the three
    local vectors. *)
Definition parseModelStructure_body (v : string * ptree) (st : ModelStructure) :
    result ModelStructure :=
  if String.eqb (fst v) "Outputs" then
    let* outputs := loadUnknowns (snd v) (outputs st) in
    OK {| outputs := outputs;
          derivatives := derivatives st;
          initialUnknowns := initialUnknowns st |}
  else if String.eqb (fst v) "Derivatives" then
    let* derivatives := loadUnknowns (snd v) (derivatives st) in
    OK {| outputs := outputs st;
          derivatives := derivatives;
          initialUnknowns := initialUnknowns st |}
  else if String.eqb (fst v) "InitialUnknowns" then
    let* initialUnknowns := loadUnknowns (snd v) (initialUnknowns st) in
    OK {| outputs := outputs st;
          derivatives := derivatives st;
          initialUnknowns := initialUnknowns |}
  else OK st.

Definition parseModelStructure (node : ptree) : result ModelStructure :=
  for_each parseModelStructure_body (children node)
           {| outputs := []; derivatives := []; initialUnknowns := [] |}.

Definition set_sourceFiles (a : FmuAttributes) (files : SourceFiles) : FmuAttributes :=
  {| modelIdentifier := modelIdentifier a;
     needsExecutionTool := needsExecutionTool a;
     canGetAndSetFMUstate := canGetAndSetFMUstate a;
     canSerializeFMUstate := canSerializeFMUstate a;
     providesDirectionalDerivative := providesDirectionalDerivative a;
     canNotUseMemoryManagementFunctions := canNotUseMemoryManagementFunctions a;
     canBeInstantiatedOnlyOncePerProcess := canBeInstantiatedOnlyOncePerProcess a;
     sourceFiles := files |}.

(** The six capability flags are read at paths that begin with [xmlattr>],
    as the source has them. *)
Definition parseFmuAttributes (node : ptree) : result FmuAttributes :=
  let* modelIdentifier := get tr_string "<xmlattr>.modelIdentifier" node in
  let attributes :=
    {| modelIdentifier := modelIdentifier;
       needsExecutionTool :=
         get_or tr_bool "xmlattr>.needsExecutionTool" false node;
       canGetAndSetFMUstate :=
         get_or tr_bool "xmlattr>.canGetAndSetFMUstate" false node;
       canSerializeFMUstate :=
         get_or tr_bool "xmlattr>.canSerializeFMUstate" false node;
       providesDirectionalDerivative :=
         get_or tr_bool "xmlattr>.providesDirectionalDerivative" false node;
       canNotUseMemoryManagementFunctions :=
         get_or tr_bool "xmlattr>.canNotUseMemoryManagementFunctions" false node;
       canBeInstantiatedOnlyOncePerProcess :=
         get_or tr_bool "xmlattr>.canBeInstantiatedOnlyOncePerProcess" false node;
       sourceFiles := [] |} in
  for_each (fun v attributes =>
              if String.eqb (fst v) "SourceFiles" then
                let* files := parseSourceFiles (snd v) (sourceFiles attributes) in
                OK (set_sourceFiles attributes files)
              else OK attributes)
           (children node) attributes.

Definition parseCoSimulationAttributes (node : ptree) : result CoSimulationAttributes :=
  let* fmu := parseFmuAttributes node in
  OK {| cs_fmu := fmu;
        maxOutputDerivativeOrder :=
          get_or tr_unsigned "<xmlattr>.maxOutputDerivativeOrder" 0%Z node;
        canInterpolateInputs :=
          get_or tr_bool "<xmlattr>.canInterpolateInputs" false node;
        canRunAsynchronuously :=
          get_or tr_bool "<xmlattr>.canRunAsynchronuously" false node;
        canHandleVariableCommunicationStepSize :=
          get_or tr_bool "<xmlattr>.canHandleVariableCommunicationStepSize" false node |}.

Definition parseModelExchangeAttributes (node : ptree) : result ModelExchangeAttributes :=
  let* fmu := parseFmuAttributes node in
  OK {| me_fmu := fmu;
        completedIntegratorStepNotNeeded :=
          get_or tr_bool "<xmlattr>.completedIntegratorStepNotNeeded" false node |}.

Definition parseScalarVariableAttributes {T : Type} (tr : translator T)
    (node : ptree) : ScalarVariableAttribute T :=
  {| start := get_optional tr "<xmlattr>.start" node;
     declaredType := get_optional tr_string "<xmlattr>.declaredType" node |}.

Definition parseBoundedScalarVariableAttributes {T : Type} (tr : translator T)
    (node : ptree) : BoundedScalarVariableAttribute T :=
  {| bounded_base := parseScalarVariableAttributes tr node;
     min := get_optional tr "<xmlattr>.min" node;
     max := get_optional tr "<xmlattr>.max" node;
     quantity := get_optional tr_string "<xmlattr>.quantity" node |}.

Definition parseIntegerAttribute (node : ptree) : IntegerAttribute :=
  parseBoundedScalarVariableAttributes tr_int node.

Definition parseStringAttribute (node : ptree) : StringAttribute :=
  parseScalarVariableAttributes tr_string node.

Definition parseBooleanAttribute (node : ptree) : BooleanAttribute :=
  parseScalarVariableAttributes tr_bool node.

Definition parseEnumerationAttribute (node : ptree) : EnumerationAttribute :=
  parseBoundedScalarVariableAttributes tr_int node.

Section WithExternals.

Context {ext : Externals}.

Definition parseDefaultExperiment (node : ptree) : DefaultExperiment :=
  {| startTime := get_optional tr_double "<xmlattr>.startTime" node;
     stopTime := get_optional tr_double "<xmlattr>.stopTime" node;
     stepSize := get_optional tr_double "<xmlattr>.stepSize" node;
     tolerance := get_optional tr_double "<xmlattr>.tolerance" node |}.

Definition parseRealAttribute (node : ptree) : RealAttribute :=
  {| real_bounded := parseBoundedScalarVariableAttributes tr_double node;
     nominal := get_optional tr_double "<xmlattr>.nominal" node;
     real_unit := get_optional tr_string "<xmlattr>.unit" node;
     derivative := get_optional tr_unsigned "<xmlattr>.derivative" node;
     reinit := get_or tr_bool "<xmlattr>.reinit" false node;
     unbounded := get_or tr_bool "<xmlattr>.unbounded" false node;
     relativeQuantity := get_or tr_bool "<xmlattr>.relativeQuantity" false node |}.

(** The scan of [parseScalarVariable]: the first child with one of the
    five tags decides the variable; without one the function throws. *)
Fixpoint parseScalarVariable_scan (base : ScalarVariableBase)
    (vs : list (string * ptree)) : result ScalarVariable :=
  match vs with
  | [] => Err (runtime_error "FATAL: Failed to parse ScalarVariable!")
  | v :: vs' =>
      if String.eqb (fst v) INTEGER_TYPE then
        OK {| sv_base := base; sv_attribute := Integer_ (parseIntegerAttribute (snd v)) |}
      else if String.eqb (fst v) REAL_TYPE then
        OK {| sv_base := base; sv_attribute := Real_ (parseRealAttribute (snd v)) |}
      else if String.eqb (fst v) STRING_TYPE then
        OK {| sv_base := base; sv_attribute := String_ (parseStringAttribute (snd v)) |}
      else if String.eqb (fst v) BOOLEAN_TYPE then
        OK {| sv_base := base; sv_attribute := Boolean_ (parseBooleanAttribute (snd v)) |}
      else if String.eqb (fst v) ENUMERATION_TYPE then
        OK {| sv_base := base; sv_attribute := Enumeration_ (parseEnumerationAttribute (snd v)) |}
      else parseScalarVariable_scan base vs'
  end.

Definition parseScalarVariableBase (node : ptree) : result ScalarVariableBase :=
  let* name := get tr_string "<xmlattr>.name" node in
  let description := get_or tr_string "<xmlattr>.description" "" node in
  let* valueReference := get tr_unsigned "<xmlattr>.valueReference" node in
  OK {| name := name;
        description := description;
        valueReference := valueReference;
        canHandleMultipleSetPerTimelnstant :=
          get_or tr_bool "<xmlattr>.canHandleMultipleSetPerTimelnstant" false node;
        causality := parseCausality (get_or tr_string "<xmlattr>.causality" "" node);
        variability := parseVariability (get_or tr_string "<xmlattr>.variability" "" node);
        initial := parseInitial (get_or tr_string "<xmlattr>.initial" "" node) |}.

Definition parseScalarVariable (node : ptree) : result ScalarVariable :=
  let* base := parseScalarVariableBase node in
  parseScalarVariable_scan base (children node).

Definition parseModelVariables (node : ptree) : result ModelVariables :=
  let* variables :=
    for_each (fun v variables =>
                if String.eqb (fst v) "ScalarVariable" then
                  let* var := parseScalarVariable (snd v) in
                  OK (variables ++ [var])
                else OK variables)
             (children node) [] in
  OK {| variables := variables |}.

Definition set_defaultExperiment (b : ModelDescriptionBase)
    (x : option DefaultExperiment) : ModelDescriptionBase :=
  {| guid := guid b; fmiVersion := fmiVersion b; modelName := modelName b;
     md_description := md_description b; author := author b;
     version := version b; license := license b; copyright := copyright b;
     generationTool := generationTool b;
     generationDateAndTime := generationDateAndTime b;
     numberOfEventIndicators := numberOfEventIndicators b;
     variableNamingConvention := variableNamingConvention b;
     defaultExperiment := x;
     modelVariables := modelVariables b;
     modelStructure := modelStructure b |}.

Definition set_modelVariables (b : ModelDescriptionBase)
    (x : option ModelVariables) : ModelDescriptionBase :=
  {| guid := guid b; fmiVersion := fmiVersion b; modelName := modelName b;
     md_description := md_description b; author := author b;
     version := version b; license := license b; copyright := copyright b;
     generationTool := generationTool b;
     generationDateAndTime := generationDateAndTime b;
     numberOfEventIndicators := numberOfEventIndicators b;
     variableNamingConvention := variableNamingConvention b;
     defaultExperiment := defaultExperiment b;
     modelVariables := x;
     modelStructure := modelStructure b |}.

Definition set_modelStructure (b : ModelDescriptionBase)
    (x : option ModelStructure) : ModelDescriptionBase :=
  {| guid := guid b; fmiVersion := fmiVersion b; modelName := modelName b;
     md_description := md_description b; author := author b;
     version := version b; license := license b; copyright := copyright b;
     generationTool := generationTool b;
     generationDateAndTime := generationDateAndTime b;
     numberOfEventIndicators := numberOfEventIndicators b;
     variableNamingConvention := variableNamingConvention b;
     defaultExperiment := defaultExperiment b;
     modelVariables := modelVariables b;
     modelStructure := x |}.

(** The body of the loop over the children of the root; the state is
    [base] with the two locals [coSimulation] and [modelExchange]. *)
Definition root_child (v : string * ptree) (st : ModelDescription) : result ModelDescription :=
  if String.eqb (fst v) "CoSimulation" then
    let* cs := parseCoSimulationAttributes (snd v) in
    OK {| base := base st; coSimulation := Some cs; modelExchange := modelExchange st |}
  else if String.eqb (fst v) "ModelExchange" then
    let* me := parseModelExchangeAttributes (snd v) in
    OK {| base := base st; coSimulation := coSimulation st; modelExchange := Some me |}
  else if String.eqb (fst v) "DefaultExperiment" then
    OK {| base := set_defaultExperiment (base st) (Some (parseDefaultExperiment (snd v)));
          coSimulation := coSimulation st; modelExchange := modelExchange st |}
  else if String.eqb (fst v) "ModelVariables" then
    let* mv := parseModelVariables (snd v) in
    OK {| base := set_modelVariables (base st) (Some mv);
          coSimulation := coSimulation st; modelExchange := modelExchange st |}
  else if String.eqb (fst v) "ModelStructure" then
    let* ms := parseModelStructure (snd v) in
    OK {| base := set_modelStructure (base st) (Some ms);
          coSimulation := coSimulation st; modelExchange := modelExchange st |}
  else OK st.

Definition parseModelDescriptionBase (root : ptree) : result ModelDescriptionBase :=
  let* guid := get tr_string "<xmlattr>.guid" root in
  let* fmiVersion := get tr_string "<xmlattr>.fmiVersion" root in
  let* modelName := get tr_string "<xmlattr>.modelName" root in
  OK {| guid := guid;
        fmiVersion := fmiVersion;
        modelName := modelName;
        md_description := get_or tr_string "<xmlattr>.description" "" root;
        author := get_or tr_string "<xmlattr>.author" "" root;
        version := get_or tr_string "<xmlattr>.version" "" root;
        license := get_or tr_string "<xmlattr>.license" "" root;
        copyright := get_or tr_string "<xmlattr>.copyright" "" root;
        generationTool := get_or tr_string "<xmlattr>.generationTool" "" root;
        generationDateAndTime :=
          get_or tr_string "<xmlattr>.generationDateAndTime" "" root;
        numberOfEventIndicators :=
          get_or tr_size_t "<xmlattr>.numberOfEventIndicators" 0%Z root;
        variableNamingConvention :=
          get_or tr_string "<xmlattr>.variableNamingConvention"
                 DEFAULT_VARIABLE_NAMING_CONVENTION root;
        defaultExperiment := None;
        modelVariables := None;
        modelStructure := None |}.

(** The statements of [parseModelDescription] from the reading of
    [base.guid] on. *)
Definition parseRoot (root : ptree) : result ModelDescription :=
  let* base := parseModelDescriptionBase root in
  for_each root_child (children root)
           {| base := base; coSimulation := None; modelExchange := None |}.

(** [parseModelDescription], given the document the file holds. *)
Definition parseModelDescription (doc : document) : result ModelDescription :=
  let tree := read_xml doc in
  let* root := get_child "fmiModelDescription" tree in
  parseRoot root.

End WithExternals.

End Parser.

(* ------------------------------------------------------------------ *)
(** ** Vocabulary of the specification *)

Module Spec.

Import Text PTree Xml Model.

(** Splitting on runs of white space and dropping empty tokens, as the
    specification words the tokenizing of [dependenciesKind]. *)
Definition split_whitespace_runs (str : string) : list string :=
  filter (fun tok => negb (String.eqb tok "")) (split isspace str).

(** An error carries a name when the name occurs in its payload. *)
Definition error_carries (e : error) (name : string) : bool :=
  match e with
  | ptree_bad_path s | ptree_bad_data s | runtime_error s => is_infix name s
  end.

(** The entries of all sections with tag [section] among the children [vs]:
    the children keyed [entry] of every child keyed [section], in document
    order. *)
Definition entries_of (section entry : string) (vs : list (string * ptree)) : list ptree :=
  flat_map (fun sec => select entry (children sec)) (select section vs).

Definition entries (section entry : string) (node : ptree) : list ptree :=
  entries_of section entry (children node).

(** The five tags of a typed attribute. *)
Definition typed_tag (tag : string) : bool :=
  String.eqb tag INTEGER_TYPE || String.eqb tag REAL_TYPE ||
  String.eqb tag STRING_TYPE || String.eqb tag BOOLEAN_TYPE ||
  String.eqb tag ENUMERATION_TYPE.

(** The slot of the description a child of the root fills. *)
Inductive slot : Type :=
| slot_coSimulation | slot_modelExchange | slot_defaultExperiment
| slot_modelVariables | slot_modelStructure.

Definition slot_of (tag : string) : option slot :=
  if String.eqb tag "CoSimulation" then Some slot_coSimulation
  else if String.eqb tag "ModelExchange" then Some slot_modelExchange
  else if String.eqb tag "DefaultExperiment" then Some slot_defaultExperiment
  else if String.eqb tag "ModelVariables" then Some slot_modelVariables
  else if String.eqb tag "ModelStructure" then Some slot_modelStructure
  else None.

(** The slots the children [vs] of a root fill, in order. *)
Definition slots (vs : list (string * ptree)) : list slot :=
  flat_map (fun v => match slot_of (fst v) with Some s => [s] | None => [] end) vs.

(** A document around its root element: comments before and after. *)
Definition fmi_document (prolog : list node) (attributes : list (string * string))
    (content : list node) (epilog : list node) : document :=
  prolog ++ Element "fmiModelDescription" attributes content :: epilog.

(** Modelled from the spec: the lexers [parseCausality],
    [parseVariability] and [parseInitial] are defined outside the sources
    at hand; the specification lists the lexemes and sends the empty string
    to the unspecified variant.  Here every other string goes there too.
    They only serve to run the parser on examples. *)
Definition spec_parseCausality (s : string) : Causality :=
  if String.eqb s "parameter" then causality_parameter
  else if String.eqb s "calculatedParameter" then causality_calculatedParameter
  else if String.eqb s "input" then causality_input
  else if String.eqb s "output" then causality_output
  else if String.eqb s "local" then causality_local
  else if String.eqb s "independent" then causality_independent
  else causality_unspecified.

Definition spec_parseVariability (s : string) : Variability :=
  if String.eqb s "constant" then variability_constant
  else if String.eqb s "fixed" then variability_fixed
  else if String.eqb s "tunable" then variability_tunable
  else if String.eqb s "discrete" then variability_discrete
  else if String.eqb s "continuous" then variability_continuous
  else variability_unspecified.

Definition spec_parseInitial (s : string) : Initial :=
  if String.eqb s "exact" then initial_exact
  else if String.eqb s "approx" then initial_approx
  else if String.eqb s "calculated" then initial_calculated
  else initial_unspecified.

(** Externals for the examples: a floating-point attribute is kept as its
    lexeme. *)
Definition example_externals : Externals :=
  {| double := string;
     tr_double := tr_string;
     parseCausality := spec_parseCausality;
     parseVariability := spec_parseVariability;
     parseInitial := spec_parseInitial |}.

(** The value of an attribute read with a default: the default stands in
    when the attribute is missing and when its value is not readable. *)
Definition attribute_or {A : Type} (tr : translator A) (k : string) (default_value : A)
    (attributes : list (string * string)) : A :=
  match attribute k attributes with
  | Some v => match tr v with Some x => x | None => default_value end
  | None => default_value
  end.

(** The value of an optional attribute: absent when the attribute is missing
    and when its value is not readable. *)
Definition attribute_opt {A : Type} (tr : translator A) (k : string)
    (attributes : list (string * string)) : option A :=
  match attribute k attributes with
  | Some v => tr v
  | None => None
  end.

(** The decimal numeral of a natural number. *)
Definition decimal (n : nat) : string :=
  DecimalString.NilEmpty.string_of_uint (Nat.to_uint n).

(** A [dependencies] attribute as it is written: decimal numerals, each one
    after the first preceded by one separator character. *)
Fixpoint render_more (rest : list (ascii * nat)) : string :=
  match rest with
  | [] => EmptyString
  | (c, n) :: rest' => String c (decimal n ++ render_more rest')
  end.

Definition render_dependencies (first : nat) (rest : list (ascii * nat)) : string :=
  decimal first ++ render_more rest.

(** The separators [parseUnknownDependencies] steps over. *)
Definition separator (c : ascii) : bool := Ascii.eqb c "," || Ascii.eqb c " ".

(** A node the loop over the children of the root passes over: character
    data, a comment, an element whose tag fills no slot. *)
Definition passed_over (n : node) : bool :=
  match n with
  | Element name _ _ =>
      match slot_of name with
      | Some _ => false
      | None => negb (String.eqb name xmlattr)
      end
  | _ => true
  end.

Section WithExternals.

Context {ext : Externals}.

(** The fields of the description read from the attributes of the root. *)
Definition identity (b : ModelDescriptionBase) :
    string * string * string * string * string * string * string * string * string
    * string * Z * string :=
  (guid b, fmiVersion b, modelName b, md_description b, author b, version b,
   license b, copyright b, generationTool b, generationDateAndTime b,
   numberOfEventIndicators b, variableNamingConvention b).

(** Whether a slot of the description is filled. *)
Definition filled (s : slot) (md : ModelDescription) : bool :=
  match s with
  | slot_coSimulation => match coSimulation md with Some _ => true | None => false end
  | slot_modelExchange => match modelExchange md with Some _ => true | None => false end
  | slot_defaultExperiment =>
      match defaultExperiment (base md) with Some _ => true | None => false end
  | slot_modelVariables =>
      match modelVariables (base md) with Some _ => true | None => false end
  | slot_modelStructure =>
      match modelStructure (base md) with Some _ => true | None => false end
  end.

(** A child of the root is accepted when the parser of its slot, if it has
    one, returns. *)
Definition accepted (v : string * ptree) : Prop :=
  match slot_of (fst v) with
  | Some slot_coSimulation =>
      exists cs, Parser.parseCoSimulationAttributes (snd v) = OK cs
  | Some slot_modelExchange =>
      exists me, Parser.parseModelExchangeAttributes (snd v) = OK me
  | Some slot_modelVariables => exists mv, Parser.parseModelVariables (snd v) = OK mv
  | Some slot_modelStructure => exists ms, Parser.parseModelStructure (snd v) = OK ms
  | Some slot_defaultExperiment | None => True
  end.

End WithExternals.

End Spec.

(* ------------------------------------------------------------------ *)
(** ** Documents used as examples *)

Module Examples.

Import Xml.

(** A flavour element that sets every capability flag. *)
Definition capable_attributes : list (string * string) :=
  [("modelIdentifier", "m");
   ("needsExecutionTool", "true");
   ("canGetAndSetFMUstate", "true");
   ("canSerializeFMUstate", "true");
   ("providesDirectionalDerivative", "true");
   ("canNotUseMemoryManagementFunctions", "true");
   ("canBeInstantiatedOnlyOncePerProcess", "true");
   ("canInterpolateInputs", "true");
   ("completedIntegratorStepNotNeeded", "true")].

(** A scalar variable that sets [canHandleMultipleSetPerTimeInstant] under
    the spelling of FMI 2.0, and one that sets it under the spelling of the
    source. *)
Definition canonical_variable : list (string * string) * list node :=
  ([("name", "x"); ("valueReference", "1");
    ("canHandleMultipleSetPerTimeInstant", "true")],
   [Element "Integer" [] []]).

Definition misspelt_variable : list (string * string) * list node :=
  ([("name", "x"); ("valueReference", "1");
    ("canHandleMultipleSetPerTimelnstant", "true")],
   [Element "Integer" [] []]).

(** Scenario A of the specification: the minimal Co-Simulation document. *)
Definition scenario_A : document :=
  [Element "fmiModelDescription"
     [("fmiVersion", "2.0"); ("modelName", "M"); ("guid", "{g}")]
     [Element "CoSimulation" [("modelIdentifier", "m")] [];
      Element "ModelVariables" [] [];
      Element "ModelStructure" [] []]].

(** Scenario A without its [<ModelVariables>] and [<ModelStructure>]. *)
Definition bare_document : document :=
  [Element "fmiModelDescription"
     [("fmiVersion", "2.0"); ("modelName", "M"); ("guid", "{g}")]
     [Element "CoSimulation" [("modelIdentifier", "m")] []]].

(** A document with both flavours, Model Exchange first, and the same with
    Co-Simulation first. *)
Definition both_flavours_content : list node :=
  [Comment "flavours";
   Element "ModelExchange" [("modelIdentifier", "me")] [];
   Element "CoSimulation" [("modelIdentifier", "cs"); ("canInterpolateInputs", "1")] [];
   Element "ModelVariables" [] [];
   Element "ModelStructure" [] []].

Definition both_flavours_reordered : list node :=
  [Element "CoSimulation" [("modelIdentifier", "cs"); ("canInterpolateInputs", "1")] [];
   Element "ModelStructure" [] [];
   Comment "flavours";
   Element "ModelExchange" [("modelIdentifier", "me")] [];
   Element "ModelVariables" [] []].

Definition root_attributes : list (string * string) :=
  [("fmiVersion", "2.0"); ("modelName", "M"); ("guid", "{g}")].

(** A [<ModelVariables>] element with two variables among other nodes. *)
Definition two_variables : list node :=
  [Comment "inputs";
   Element "ScalarVariable" [("name", "a"); ("valueReference", "0"); ("causality", "input")]
     [Element "Real" [] []];
   Element "Annotations" [] [];
   Element "ScalarVariable" [("name", "b"); ("valueReference", "1")]
     [Element "Boolean" [("start", "true")] []]].

(** A scalar variable with no typed child. *)
Definition untyped_variable (name : string) : list (string * string) * list node :=
  ([("name", name); ("valueReference", "1")], [Comment "no type"]).

End Examples.

(* ------------------------------------------------------------------ *)
(** * Properties *)

Import Text Stream PTree Xml Model Parser Spec Examples.

Local Arguments String.eqb : simpl never.

(** ** Results and loops *)

Lemma bind_OK {A B} (m : result A) (k : A -> result B) b :
  bind m k = OK b <-> exists a, m = OK a /\ k a = OK b.
Proof.
  destruct m as [a|e]; simpl; split.
  - intros H; exists a; auto.
  - intros (a' & Ha & Hk); inversion Ha; subst; auto.
  - discriminate.
  - intros (a' & Ha & _); discriminate.
Qed.

Lemma mapM_app {A B} (f : A -> result B) l1 l2 :
  mapM f (l1 ++ l2) =
  let* xs := mapM f l1 in let* ys := mapM f l2 in OK (xs ++ ys).
Proof.
  induction l1 as [|x l1 IH]; simpl.
  - destruct (mapM f l2); reflexivity.
  - destruct (f x) as [y|e]; simpl; [|reflexivity].
    rewrite IH. destruct (mapM f l1); simpl; [|reflexivity].
    destruct (mapM f l2); reflexivity.
Qed.

Lemma mapM_Forall2 {A B} (f : A -> result B) l ys :
  mapM f l = OK ys <-> Forall2 (fun x y => f x = OK y) l ys.
Proof.
  revert ys; induction l as [|x l IH]; intros ys; simpl; split.
  - intros H; inversion H; constructor.
  - intros H; inversion H; reflexivity.
  - intros H. apply bind_OK in H as (y & Hy & H).
    apply bind_OK in H as (ys' & Hys & H). inversion H; subst.
    constructor; [assumption|]. now apply IH.
  - intros H; inversion H as [|? y ? ys' Hy Hys]; subst.
    rewrite Hy; simpl. apply IH in Hys. now rewrite Hys.
Qed.

Lemma for_each_app {S} (body : string * ptree -> S -> result S) l1 l2 st :
  for_each body (l1 ++ l2) st = let* st' := for_each body l1 st in for_each body l2 st'.
Proof.
  revert st; induction l1 as [|x l1 IH]; intros st; simpl; [reflexivity|].
  destruct (body x st); simpl; auto.
Qed.

(** A loop that appends what it parses from the children with one tag is a
    [mapM] over those children. *)
Lemma for_each_collect {B} (tag : string) (f : ptree -> result B) vs acc :
  for_each (fun v acc => if String.eqb (fst v) tag
                         then let* x := f (snd v) in OK (acc ++ [x])
                         else OK acc) vs acc
  = let* xs := mapM f (select tag vs) in OK (acc ++ xs).
Proof.
  revert acc; induction vs as [|v vs IH]; intros acc; simpl.
  - now rewrite app_nil_r.
  - unfold select; simpl. destruct (String.eqb (fst v) tag); simpl.
    + destruct (f (snd v)) as [x|e]; simpl; [|reflexivity].
      rewrite IH. unfold select. destruct (mapM f _); simpl; [|reflexivity].
      now rewrite <- app_assoc.
    + apply IH.
Qed.

(** ** Trees read from XML *)

Lemma children_read_nodes content pt :
  children (read_nodes content pt) = children pt ++ flat_map node_children content.
Proof.
  revert pt; induction content as [|n content IH]; intros pt; simpl.
  - now rewrite app_nil_r.
  - unfold read_nodes in *; simpl. rewrite IH.
    destruct n; simpl; rewrite <- ?app_assoc; reflexivity.
Qed.

Lemma find_app_none key (l1 l2 : list (string * ptree)) :
  List.find (fun kv => String.eqb (fst kv) key) l1 = None ->
  List.find (fun kv => String.eqb (fst kv) key) (l1 ++ l2)
  = List.find (fun kv => String.eqb (fst kv) key) l2.
Proof.
  induction l1 as [|x l1 IH]; simpl; [reflexivity|].
  destruct (String.eqb (fst x) key); [discriminate|exact IH].
Qed.

Lemma find_content_none key content :
  names_ok content -> name_ok key = false -> key <> xmlcomment ->
  List.find (fun kv => String.eqb (fst kv) key) (flat_map node_children content) = None.
Proof.
  intros Hok Hkey Hc. induction content as [|n content IH]; simpl; [reflexivity|].
  assert (Hok' : names_ok content).
  { intros nm a sub Hin. apply (Hok nm a sub). now right. }
  destruct n as [nm a sub| |]; simpl.
  - destruct (String.eqb_spec nm key) as [->|_].
    + rewrite (Hok key a sub) in Hkey by now left. discriminate.
    + apply IH, Hok'.
  - apply IH, Hok'.
  - destruct (String.eqb_spec xmlcomment key) as [E|_]; [congruence|apply IH, Hok'].
Qed.

Lemma find_element_tree_none key attributes content :
  names_ok content -> name_ok key = false -> key <> xmlcomment ->
  key <> xmlattr \/ attributes = [] ->
  find key (element_tree attributes content) = None.
Proof.
  intros Hok Hkey Hc Ha. unfold find, element_tree.
  rewrite children_read_nodes; simpl.
  rewrite find_app_none, find_content_none; auto.
  destruct attributes; simpl; [reflexivity|].
  destruct Ha as [Ha|Ha]; [|discriminate].
  destruct (String.eqb_spec xmlattr key) as [E|_]; [congruence|reflexivity].
Qed.

Lemma find_attribute k attributes :
  List.find (fun kv => String.eqb (fst kv) k)
            (map (fun a : string * string => (fst a, Node (snd a) [])) attributes)
  = option_map (fun a : string * string => (fst a, Node (snd a) []))
               (List.find (fun a => String.eqb (fst a) k) attributes).
Proof.
  induction attributes as [|a l IH]; simpl; [reflexivity|].
  destruct (String.eqb (fst a) k); simpl; auto.
Qed.

Lemma get_child_attribute path k attributes content :
  fragments path = [xmlattr; k] ->
  attributes <> [] \/ names_ok content ->
  get_child_optional path (element_tree attributes content)
  = option_map (fun v => Node v []) (attribute k attributes).
Proof.
  intros Hp Hne. unfold get_child_optional. rewrite Hp. simpl.
  destruct attributes as [|a l].
  - destruct Hne as [Hne|Hok]; [congruence|].
    rewrite find_element_tree_none; auto; try discriminate; reflexivity.
  - unfold find at 1, element_tree. rewrite children_read_nodes. simpl.
    unfold find, attribute. simpl children.
    change ((fst a, Node (snd a) []) :: map (fun a0 : string * string => (fst a0, Node (snd a0) [])) l)
      with (map (fun a0 : string * string => (fst a0, Node (snd a0) [])) (a :: l)).
    rewrite find_attribute.
    destruct (List.find _ (a :: l)); reflexivity.
Qed.

Lemma get_optional_attribute {A} (tr : translator A) path k attributes content :
  fragments path = [xmlattr; k] ->
  attributes <> [] \/ names_ok content ->
  get_optional tr path (element_tree attributes content)
  = match attribute k attributes with Some v => tr v | None => None end.
Proof.
  intros Hp Hne. unfold get_optional. rewrite (get_child_attribute _ k); auto.
  destruct (attribute k attributes); reflexivity.
Qed.

Lemma get_attribute {A} (tr : translator A) path k attributes content :
  fragments path = [xmlattr; k] ->
  attributes <> [] \/ names_ok content ->
  get tr path (element_tree attributes content)
  = match attribute k attributes with
    | Some v => match tr v with Some x => OK x | None => Err (ptree_bad_data v) end
    | None => Err (ptree_bad_path path)
    end.
Proof.
  intros Hp Hne. unfold get, get_child. rewrite (get_child_attribute _ k); auto.
  destruct (attribute k attributes); reflexivity.
Qed.

(** ** Stream extraction consumes input *)

Lemma skipws_length s : (length (skipws s) <= length s)%nat.
Proof. induction s as [|c s IH]; simpl; [lia|]. destruct (isspace c); simpl; lia. Qed.

Lemma sign_length s : (length (snd (sign s)) <= length s)%nat.
Proof.
  destruct s as [|c s]; simpl; [lia|].
  destruct (Ascii.eqb c "-"); simpl; [lia|]. destruct (Ascii.eqb c "+"); simpl; lia.
Qed.

Lemma digits_length s : forall acc taken v taken' rest,
  digits acc taken s = (v, taken', rest) ->
  (length rest + taken' = length s + taken)%nat.
Proof.
  induction s as [|c s IH]; simpl; intros acc taken v taken' rest H.
  - inversion H; subst; simpl; lia.
  - destruct (isdigit c).
    + apply IH in H. lia.
    + inversion H; subst; simpl; lia.
Qed.

Lemma extract_unsigned_shorter bits s v rest :
  extract_unsigned bits s = Some (v, rest) -> (length rest < length s)%nat.
Proof.
  unfold extract_unsigned.
  pose proof (skipws_length s) as H1. pose proof (sign_length (skipws s)) as H2.
  destruct (sign (skipws s)) as [neg s1]; simpl in H2.
  destruct (digits 0 0 s1) as [[x taken] r] eqn:Hd.
  apply digits_length in Hd.
  destruct taken; [discriminate|].
  destruct (x <? 2 ^ bits)%Z; [|discriminate].
  intros H; inversion H; subst. lia.
Qed.

Lemma parseUnknownDependencies_loop_fuel n : forall m ss store,
  (length ss < n)%nat -> (length ss < m)%nat ->
  parseUnknownDependencies_loop n ss store = parseUnknownDependencies_loop m ss store.
Proof.
  induction n as [|n IH]; intros m ss store Hn Hm; [lia|].
  destruct m as [|m]; [lia|]. simpl.
  destruct (extract_unsigned 32 ss) as [[i rest]|] eqn:He; [|reflexivity].
  apply extract_unsigned_shorter in He.
  destruct rest as [|c rest']; [reflexivity|]. simpl in He.
  destruct (Ascii.eqb c "," || Ascii.eqb c " "); apply IH; simpl; lia.
Qed.

Lemma length_chars s : length (chars s) = String.length s.
Proof. induction s; simpl; congruence. Qed.

(** ** The tokenizer *)

Lemma split_not_nil pred s : split pred s <> [].
Proof.
  destruct s as [|c s]; simpl; [discriminate|].
  destruct (pred c); [discriminate|]. destruct (split pred s); discriminate.
Qed.

Lemma split_length pred s : length (split pred s) = S (count pred s).
Proof.
  induction s as [|c s IH]; simpl; [reflexivity|].
  destruct (pred c); simpl; [now rewrite IH|].
  pose proof (split_not_nil pred s). destruct (split pred s); [congruence|exact IH].
Qed.

Lemma split_tokens pred s :
  Forall (fun tok => forallb_string (fun c => negb (pred c)) tok = true) (split pred s).
Proof.
  induction s as [|c s IH]; simpl.
  - repeat constructor.
  - destruct (pred c) eqn:Hc.
    + constructor; [reflexivity|exact IH].
    + destruct (split pred s) as [|tok toks].
      * constructor; [simpl; now rewrite Hc|constructor].
      * inversion IH; subst. constructor; [simpl; rewrite Hc; assumption|assumption].
Qed.

Lemma split_concat c pred s :
  (forall x, pred x = true -> x = c) ->
  String.concat (String c "") (split pred s) = s.
Proof.
  intros Hp. induction s as [|x s IH]; simpl; [reflexivity|].
  pose proof (split_not_nil pred s) as Hne.
  destruct (pred x) eqn:Hx.
  - apply Hp in Hx; subst x.
    destruct (split pred s) as [|tok toks]; [congruence|].
    simpl in *. now rewrite IH.
  - destruct (split pred s) as [|tok toks]; [congruence|].
    destruct toks; simpl in *; now rewrite IH.
Qed.

Lemma split_token pred tok :
  forallb_string (fun c => negb (pred c)) tok = true -> split pred tok = [tok].
Proof.
  induction tok as [|c tok IH]; simpl; [reflexivity|].
  intros H; apply andb_prop in H as [Hc Ht].
  destruct (pred c); [discriminate|]. now rewrite IH.
Qed.

Lemma split_token_sep pred tok c rest :
  forallb_string (fun c => negb (pred c)) tok = true -> pred c = true ->
  split pred (tok ++ String c rest) = tok :: split pred rest.
Proof.
  intros Ht Hc. induction tok as [|x tok IH]; simpl in *.
  - now rewrite Hc.
  - apply andb_prop in Ht as [Hx Ht]. destruct (pred x); [discriminate|].
    now rewrite IH.
Qed.

Lemma split_join pred c toks :
  pred c = true -> toks <> [] ->
  Forall (fun tok => forallb_string (fun c => negb (pred c)) tok = true) toks ->
  split pred (String.concat (String c "") toks) = toks.
Proof.
  intros Hc Hne Hall. induction Hall as [|tok toks Ht Hall IH]; [congruence|].
  destruct toks as [|tok' toks'].
  - simpl. now apply split_token.
  - change (String.concat (String c "") (tok :: tok' :: toks'))
      with (tok ++ String c (String.concat (String c "") (tok' :: toks')))%string.
    rewrite split_token_sep by assumption. f_equal. apply IH. discriminate.
Qed.

(** ** [<Unknown>] *)

Lemma attribute_not_nil k attributes v :
  attribute k attributes = Some v -> attributes <> [].
Proof. destruct attributes; [discriminate|discriminate]. Qed.

(** What [parseUnknown] returns on an element whose [index] is readable. *)
Lemma parseUnknown_element attributes content idx i :
  attribute "index" attributes = Some idx -> tr_unsigned idx = Some i ->
  parseUnknown (element_tree attributes content)
  = OK {| index := i;
          dependencies :=
            option_map (fun str => parseUnknownDependencies str [])
                       (attribute "dependencies" attributes);
          dependenciesKind :=
            option_map (fun str => parseUnknownDependenciesKind str [])
                       (attribute "dependenciesKind" attributes) |}.
Proof.
  intros Hidx Hi. pose proof (attribute_not_nil _ _ _ Hidx) as Hne.
  unfold parseUnknown.
  rewrite (get_attribute _ _ "index") by (auto; reflexivity).
  rewrite Hidx, Hi. simpl.
  rewrite (get_optional_attribute _ _ "dependencies") by (auto; reflexivity).
  rewrite (get_optional_attribute _ _ "dependenciesKind") by (auto; reflexivity).
  unfold tr_string.
  destruct (attribute "dependencies" attributes), (attribute "dependenciesKind" attributes);
    reflexivity.
Qed.

(** The loop of [parseUnknownDependencies] has run to its end: more fuel
    changes nothing. *)
Lemma parseUnknownDependencies_fuel str store n :
  (String.length str < n)%nat ->
  parseUnknownDependencies_loop n (chars str) store = parseUnknownDependencies str store.
Proof.
  intros H. unfold parseUnknownDependencies.
  apply parseUnknownDependencies_loop_fuel; rewrite length_chars; lia.
Qed.

(** Claim C3: on an [<Unknown>] element whose [index] is readable, the
    attribute [dependencies="1,2 3,4"] is parsed to the list [1,2,3,4], the
    empty attribute to a present, empty list, and without the attribute the
    field is absent. *)
Theorem unknown_dependencies attributes content idx i :
  attribute "index" attributes = Some idx -> tr_unsigned idx = Some i ->
  exists u,
    parseUnknown (element_tree attributes content) = OK u /\
    (attribute "dependencies" attributes = Some "1,2 3,4" ->
     dependencies u = Some [1; 2; 3; 4]%Z) /\
    (attribute "dependencies" attributes = Some "" -> dependencies u = Some []) /\
    (attribute "dependencies" attributes = None -> dependencies u = None).
Proof.
  intros Hidx Hi. eexists. split; [apply (parseUnknown_element _ _ idx i); assumption|].
  simpl. repeat split; intros ->; reflexivity.
Qed.

Lemma unknown_dependencies_witness :
  exists u,
    parseUnknown (element_tree [("index", "3"); ("dependencies", "1,2 3,4")] []) = OK u /\
    dependencies u = Some [1; 2; 3; 4]%Z.
Proof.
  destruct (unknown_dependencies [("index", "3"); ("dependencies", "1,2 3,4")] [] "3" 3%Z)
    as (u & Hu & H1 & _); [reflexivity|reflexivity|].
  exists u. split; [exact Hu|]. apply H1. reflexivity.
Defined.

(** Claim C4 fails on the empty attribute: the parsed list is the one-element
    list holding the empty string, where splitting on runs of white space and
    dropping empty tokens gives no token at all. *)
Lemma dependenciesKind_empty_string :
  parseUnknown (element_tree [("index", "1"); ("dependenciesKind", "")] [])
  = OK {| index := 1; dependencies := None; dependenciesKind := Some [""] |} /\
  split_whitespace_runs "" = [] /\
  In "" (parseUnknownDependenciesKind "" []).
Proof. split; [reflexivity|]. split; [reflexivity|]. left; reflexivity. Qed.

Lemma no_space_of_no_whitespace tok :
  forallb_string (fun c => negb (isspace c)) tok = true ->
  forallb_string (fun c => negb (Ascii.eqb c " ")) tok = true.
Proof.
  induction tok as [|c tok IH]; simpl; [reflexivity|].
  intros H; apply andb_prop in H as [Hc Ht]. rewrite IH by assumption.
  destruct (Ascii.eqb_spec c " ") as [->|_]; [discriminate|reflexivity].
Qed.

(** Claim C4, amended: a present [dependenciesKind] attribute is cut at every
    single space character, empty tokens kept.  The tokens hold no space,
    joined by single spaces they give the attribute back, and there is one
    more token than there are spaces.  The list is the one the split on runs
    of white space gives whenever the attribute consists of non-empty tokens
    free of white space, separated by single spaces. *)
Theorem dependenciesKind_split attributes content idx i str :
  attribute "index" attributes = Some idx -> tr_unsigned idx = Some i ->
  attribute "dependenciesKind" attributes = Some str ->
  exists u toks,
    parseUnknown (element_tree attributes content) = OK u /\
    dependenciesKind u = Some toks /\
    String.concat " " toks = str /\
    Forall (fun tok => forallb_string (fun c => negb (Ascii.eqb c " ")) tok = true) toks /\
    length toks = S (count (fun c => Ascii.eqb c " ") str) /\
    (forall ws,
        ws <> [] ->
        Forall (fun w => w <> "" /\ forallb_string (fun c => negb (isspace c)) w = true) ws ->
        str = String.concat " " ws ->
        toks = ws /\ split_whitespace_runs str = ws).
Proof.
  intros Hidx Hi Hk. eexists. eexists.
  split; [apply (parseUnknown_element _ _ idx i); assumption|].
  simpl. rewrite Hk. simpl. split; [reflexivity|].
  unfold parseUnknownDependenciesKind.
  split; [apply split_concat; intros x Hx; now apply Ascii.eqb_eq in Hx|].
  split; [apply split_tokens|].
  split; [apply split_length|].
  intros ws Hne Hws ->. split.
  - apply split_join; [reflexivity|assumption|].
    eapply Forall_impl; [|exact Hws]. intros w [_ Hw]. apply no_space_of_no_whitespace. exact Hw.
  - unfold split_whitespace_runs. rewrite split_join; [|reflexivity|assumption|].
    + clear Hne Hk. induction Hws as [|w ws [Hw _] _ IH]; simpl; [reflexivity|].
      destruct (String.eqb_spec w ""); [contradiction|]. simpl. now rewrite IH.
    + eapply Forall_impl; [|exact Hws]. intros w [_ Hw]. exact Hw.
Qed.

Lemma dependenciesKind_split_witness :
  exists u,
    parseUnknown (element_tree [("index", "4"); ("dependenciesKind", "fixed tunable constant")] [])
    = OK u /\
    dependenciesKind u = Some ["fixed"; "tunable"; "constant"] /\
    split_whitespace_runs "fixed tunable constant" = ["fixed"; "tunable"; "constant"].
Proof.
  destruct (dependenciesKind_split
              [("index", "4"); ("dependenciesKind", "fixed tunable constant")] []
              "4" 4%Z "fixed tunable constant")
    as (u & toks & Hu & Hk & _ & _ & _ & Hws); [reflexivity|reflexivity|reflexivity|].
  destruct (Hws ["fixed"; "tunable"; "constant"]) as [Ht Hs].
  - discriminate.
  - repeat constructor; discriminate.
  - reflexivity.
  - exists u. split; [exact Hu|]. split; [now rewrite Hk, Ht|exact Hs].
Defined.

(** ** Capability flags of a flavour element *)

Lemma for_each_sourceFiles_flags vs : forall a a',
  for_each (fun v attributes =>
              if String.eqb (fst v) "SourceFiles" then
                let* files := parseSourceFiles (snd v) (sourceFiles attributes) in
                OK (set_sourceFiles attributes files)
              else OK attributes) vs a = OK a' ->
  modelIdentifier a' = modelIdentifier a /\
  needsExecutionTool a' = needsExecutionTool a /\
  canGetAndSetFMUstate a' = canGetAndSetFMUstate a /\
  canSerializeFMUstate a' = canSerializeFMUstate a /\
  providesDirectionalDerivative a' = providesDirectionalDerivative a /\
  canNotUseMemoryManagementFunctions a' = canNotUseMemoryManagementFunctions a /\
  canBeInstantiatedOnlyOncePerProcess a' = canBeInstantiatedOnlyOncePerProcess a.
Proof.
  induction vs as [|v vs IH]; simpl; intros a a' H.
  - inversion H; subst; repeat split.
  - apply bind_OK in H as (a1 & H1 & H). apply IH in H.
    destruct (String.eqb (fst v) "SourceFiles").
    + apply bind_OK in H1 as (files & _ & H1). inversion H1; subst a1. exact H.
    + inversion H1; subst a1. exact H.
Qed.

(** On a tree read from XML no child is keyed [xmlattr>], so a flag read
    below that key is the default. *)
Lemma get_or_unclosed_key {A} (tr : translator A) path k dflt attributes content :
  fragments path = ["xmlattr>"; k] -> names_ok content ->
  get_or tr path dflt (element_tree attributes content) = dflt.
Proof.
  intros Hp Hok. unfold get_or, get_optional, get_child_optional. rewrite Hp. simpl.
  rewrite find_element_tree_none; auto; try discriminate.
  left; discriminate.
Qed.

(** Whatever a flavour element of a document says, the six flags come out
    false. *)
Lemma fmu_capabilities_always_false attributes content a :
  names_ok content ->
  parseFmuAttributes (element_tree attributes content) = OK a ->
  needsExecutionTool a = false /\
  canGetAndSetFMUstate a = false /\
  canSerializeFMUstate a = false /\
  providesDirectionalDerivative a = false /\
  canNotUseMemoryManagementFunctions a = false /\
  canBeInstantiatedOnlyOncePerProcess a = false.
Proof.
  intros Hok H. unfold parseFmuAttributes in H.
  apply bind_OK in H as (mi & _ & H).
  rewrite (get_or_unclosed_key tr_bool "xmlattr>.needsExecutionTool" "needsExecutionTool" false attributes content
             eq_refl Hok) in H.
  rewrite (get_or_unclosed_key tr_bool "xmlattr>.canGetAndSetFMUstate" "canGetAndSetFMUstate" false attributes content
             eq_refl Hok) in H.
  rewrite (get_or_unclosed_key tr_bool "xmlattr>.canSerializeFMUstate" "canSerializeFMUstate" false attributes content
             eq_refl Hok) in H.
  rewrite (get_or_unclosed_key tr_bool "xmlattr>.providesDirectionalDerivative" "providesDirectionalDerivative" false attributes
             content eq_refl Hok) in H.
  rewrite (get_or_unclosed_key tr_bool "xmlattr>.canNotUseMemoryManagementFunctions" "canNotUseMemoryManagementFunctions" false
             attributes content eq_refl Hok) in H.
  rewrite (get_or_unclosed_key tr_bool "xmlattr>.canBeInstantiatedOnlyOncePerProcess" "canBeInstantiatedOnlyOncePerProcess" false
             attributes content eq_refl Hok) in H.
  apply for_each_sourceFiles_flags in H as (_ & H1 & H2 & H3 & H4 & H5 & H6).
  repeat split; assumption.
Qed.

(** Claim C1 at a flavour element that sets all six capability flags to
    [true]: both flavour parsers return the six flags [false], while the
    flags read at a well-formed path ([canInterpolateInputs],
    [completedIntegratorStepNotNeeded]) are [true] as the element says. *)
Theorem fmu_capabilities_not_read :
  parseCoSimulationAttributes (element_tree capable_attributes [])
  = OK {| cs_fmu :=
            {| modelIdentifier := "m";
               needsExecutionTool := false;
               canGetAndSetFMUstate := false;
               canSerializeFMUstate := false;
               providesDirectionalDerivative := false;
               canNotUseMemoryManagementFunctions := false;
               canBeInstantiatedOnlyOncePerProcess := false;
               sourceFiles := [] |};
          maxOutputDerivativeOrder := 0;
          canInterpolateInputs := true;
          canRunAsynchronuously := false;
          canHandleVariableCommunicationStepSize := false |} /\
  parseModelExchangeAttributes (element_tree capable_attributes [])
  = OK {| me_fmu :=
            {| modelIdentifier := "m";
               needsExecutionTool := false;
               canGetAndSetFMUstate := false;
               canSerializeFMUstate := false;
               providesDirectionalDerivative := false;
               canNotUseMemoryManagementFunctions := false;
               canBeInstantiatedOnlyOncePerProcess := false;
               sourceFiles := [] |};
          completedIntegratorStepNotNeeded := true |} /\
  attribute "needsExecutionTool" capable_attributes = Some "true" /\
  tr_bool "true" = Some true.
Proof. repeat split; vm_compute; reflexivity. Qed.

Section Documents.

Context {ext : Externals}.

(** Claim C2 at a variable that carries
    [canHandleMultipleSetPerTimeInstant="true"]: the parsed flag is [false];
    it is [true] only under the spelling the source reads, with a lower-case
    l in place of the capital I. *)
Theorem canonical_spelling_not_read :
  (exists v,
      parseScalarVariable (element_tree (fst canonical_variable) (snd canonical_variable)) = OK v /\
      canHandleMultipleSetPerTimelnstant (sv_base v) = false) /\
  (exists v,
      parseScalarVariable (element_tree (fst misspelt_variable) (snd misspelt_variable)) = OK v /\
      canHandleMultipleSetPerTimelnstant (sv_base v) = true).
Proof.
  split; eexists; (split; [vm_compute; reflexivity|reflexivity]).
Qed.

(** Claim C7: Scenario A parses to the expected description. *)
Theorem scenario_A_parsed :
  parseModelDescription scenario_A
  = OK {| base :=
            {| guid := "{g}";
               fmiVersion := "2.0";
               modelName := "M";
               md_description := "";
               author := "";
               version := "";
               license := "";
               copyright := "";
               generationTool := "";
               generationDateAndTime := "";
               numberOfEventIndicators := 0;
               variableNamingConvention := "flat";
               defaultExperiment := None;
               modelVariables := Some {| variables := [] |};
               modelStructure :=
                 Some {| outputs := []; derivatives := []; initialUnknowns := [] |} |};
          coSimulation :=
            Some {| cs_fmu :=
                      {| modelIdentifier := "m";
                         needsExecutionTool := false;
                         canGetAndSetFMUstate := false;
                         canSerializeFMUstate := false;
                         providesDirectionalDerivative := false;
                         canNotUseMemoryManagementFunctions := false;
                         canBeInstantiatedOnlyOncePerProcess := false;
                         sourceFiles := [] |};
                    maxOutputDerivativeOrder := 0;
                    canInterpolateInputs := false;
                    canRunAsynchronuously := false;
                    canHandleVariableCommunicationStepSize := false |};
          modelExchange := None |}.
Proof. vm_compute. reflexivity. Qed.

End Documents.

(** ** Children of a tree read from XML, by tag *)

Lemma select_app key l1 l2 : select key (l1 ++ l2) = select key l1 ++ select key l2.
Proof. unfold select. now rewrite filter_app, map_app. Qed.

Lemma select_content tag content :
  tag <> xmlcomment ->
  select tag (flat_map node_children content) = elements_named tag content.
Proof.
  intros Hc. induction content as [|n content IH]; [reflexivity|].
  simpl. rewrite select_app, IH. f_equal.
  destruct n as [nm a sub| |]; unfold select; simpl; [|reflexivity|].
  - destruct (String.eqb nm tag); reflexivity.
  - destruct (String.eqb_spec xmlcomment tag); [congruence|reflexivity].
Qed.

Lemma select_element_tree tag attributes content :
  tag <> xmlattr -> tag <> xmlcomment ->
  select tag (children (element_tree attributes content)) = elements_named tag content.
Proof.
  intros Ha Hc. unfold element_tree. rewrite children_read_nodes, select_app.
  rewrite select_content by assumption. simpl.
  destruct attributes; [reflexivity|]. unfold select; simpl.
  destruct (String.eqb_spec xmlattr tag); [congruence|reflexivity].
Qed.

Section Variables_.

Context {ext : Externals}.

(** [parseModelVariables] is a [mapM] of [parseScalarVariable] over the
    [<ScalarVariable>] children. *)
Lemma parseModelVariables_element attributes content :
  parseModelVariables (element_tree attributes content)
  = (let* vs := mapM parseScalarVariable (elements_named "ScalarVariable" content) in
     OK {| variables := vs |}).
Proof.
  unfold parseModelVariables. rewrite for_each_collect.
  rewrite select_element_tree by discriminate.
  destruct (mapM _ _); reflexivity.
Qed.

End Variables_.

(** ** Documents and their root *)

Lemma find_prolog key prolog rest :
  forallb not_element prolog = true ->
  key <> xmlcomment ->
  List.find (fun kv : string * ptree => String.eqb (fst kv) key)
            (flat_map node_children (prolog ++ rest))
  = List.find (fun kv : string * ptree => String.eqb (fst kv) key)
              (flat_map node_children rest).
Proof.
  intros Hp Hk. induction prolog as [|n prolog IH]; [reflexivity|].
  simpl in Hp. apply andb_prop in Hp as [Hn Hp].
  destruct n as [nm a sub| |]; simpl; [discriminate|auto|].
  destruct (String.eqb_spec xmlcomment key); [congruence|auto].
Qed.

Section Root.

Context {ext : Externals}.

(** The root element of a document is the tree the parser works on. *)
Lemma parseModelDescription_document prolog attributes content epilog :
  forallb not_element prolog = true ->
  parseModelDescription (fmi_document prolog attributes content epilog)
  = parseRoot (element_tree attributes content).
Proof.
  intros Hp. unfold parseModelDescription, get_child, get_child_optional.
  change (fragments "fmiModelDescription") with ["fmiModelDescription"].
  unfold walk_path, find, read_xml. rewrite children_read_nodes.
  unfold fmi_document. simpl children. rewrite app_nil_l.
  rewrite find_prolog by (assumption || discriminate).
  reflexivity.
Qed.

End Root.

Lemma In_children_element name attributes sub attrs content :
  In (Element name attributes sub) content ->
  In (name, element_tree attributes sub) (children (element_tree attrs content)).
Proof.
  intros H. unfold element_tree at 2. rewrite children_read_nodes.
  apply in_or_app; right. apply in_flat_map.
  exists (Element name attributes sub). split; [assumption|now left].
Qed.

Lemma In_elements_named tag attributes sub content :
  In (Element tag attributes sub) content ->
  In (element_tree attributes sub) (elements_named tag content).
Proof.
  intros H. unfold elements_named. apply in_flat_map.
  exists (Element tag attributes sub). split; [assumption|].
  rewrite String.eqb_refl. now left.
Qed.

Lemma mapM_fails {A B} (f : A -> result B) l x e :
  In x l -> f x = Err e -> exists e', mapM f l = Err e'.
Proof.
  intros Hin Hx. induction l as [|y l IH]; [contradiction|]. simpl.
  destruct Hin as [->|Hin].
  - rewrite Hx. now exists e.
  - destruct (f y); simpl; [|eauto]. destruct (IH Hin) as [e' ->]. simpl; eauto.
Qed.

Lemma for_each_fails {S} (body : string * ptree -> S -> result S) vs v :
  In v vs -> (forall st, exists e, body v st = Err e) ->
  forall st, exists e, for_each body vs st = Err e.
Proof.
  intros Hin Hv. induction vs as [|w vs IH]; [contradiction|]. intros st; simpl.
  destruct Hin as [->|Hin].
  - destruct (Hv st) as [e ->]. simpl; eauto.
  - destruct (body w st); simpl; eauto.
Qed.

(** ** Scalar variables without a typed child *)

Section Untyped.

Context {ext : Externals}.

Lemma parseScalarVariable_scan_untyped base vs :
  Forall (fun v => typed_tag (fst v) = false) vs ->
  parseScalarVariable_scan base vs
  = Err (runtime_error "FATAL: Failed to parse ScalarVariable!").
Proof.
  induction 1 as [|v vs Hv _ IH]; [reflexivity|]. simpl.
  unfold typed_tag in Hv.
  repeat (apply orb_false_elim in Hv as [Hv ?]).
  repeat match goal with H : String.eqb _ _ = false |- _ => rewrite H; clear H end.
  exact IH.
Qed.

Lemma children_untyped attributes content :
  (forall tag a sub, In (Element tag a sub) content -> typed_tag tag = false) ->
  Forall (fun v => typed_tag (fst v) = false) (children (element_tree attributes content)).
Proof.
  intros H. unfold element_tree. rewrite children_read_nodes. apply Forall_app. split.
  - destruct attributes; repeat constructor.
  - clear attributes. induction content as [|n content IH]; simpl; [constructor|].
    apply Forall_app. split.
    + destruct n as [nm a sub| |]; simpl; repeat constructor.
      simpl. apply (H nm a sub). now left.
    + apply IH. intros tag a sub Hin. apply (H tag a sub). now right.
Qed.

Lemma parseScalarVariable_untyped attributes content :
  (forall tag a sub, In (Element tag a sub) content -> typed_tag tag = false) ->
  parseScalarVariable (element_tree attributes content)
  = let* base := parseScalarVariableBase (element_tree attributes content) in
    Err (runtime_error "FATAL: Failed to parse ScalarVariable!").
Proof.
  intros H. unfold parseScalarVariable.
  destruct (parseScalarVariableBase _); simpl; [|reflexivity].
  apply parseScalarVariable_scan_untyped, children_untyped, H.
Qed.

(** Claim C5, amended: a [<ScalarVariable>] none of whose children is tagged
    Integer, Real, String, Boolean or Enumeration makes parsing fail, and no
    description is returned for a document that holds it.  When its [name]
    and [valueReference] are readable the error is the fixed runtime error
    of the parser, the same for every variable. *)
Theorem untyped_scalar_variable_fails attributes content :
  (forall tag a sub, In (Element tag a sub) content -> typed_tag tag = false) ->
  (exists e, parseScalarVariable (element_tree attributes content) = Err e) /\
  (forall nm vr v,
      attribute "name" attributes = Some nm ->
      attribute "valueReference" attributes = Some vr ->
      tr_unsigned vr = Some v ->
      parseScalarVariable (element_tree attributes content)
      = Err (runtime_error "FATAL: Failed to parse ScalarVariable!")) /\
  (forall prolog rattributes rcontent epilog mvattributes mvcontent,
      forallb not_element prolog = true ->
      In (Element "ModelVariables" mvattributes mvcontent) rcontent ->
      In (Element "ScalarVariable" attributes content) mvcontent ->
      exists e,
        parseModelDescription (fmi_document prolog rattributes rcontent epilog) = Err e).
Proof.
  intros Hun. pose proof (parseScalarVariable_untyped attributes content Hun) as Heq.
  assert (Hfail : exists e, parseScalarVariable (element_tree attributes content) = Err e).
  { rewrite Heq. destruct (parseScalarVariableBase _); simpl; eauto. }
  split; [exact Hfail|]. split.
  - intros nm vr v Hnm Hvr Hv. rewrite Heq.
    pose proof (attribute_not_nil _ _ _ Hnm) as Hne.
    unfold parseScalarVariableBase.
    rewrite (get_attribute _ _ "name") by (auto; reflexivity).
    rewrite Hnm. simpl.
    rewrite (get_attribute _ _ "valueReference") by (auto; reflexivity).
    rewrite Hvr, Hv. reflexivity.
  - intros prolog rattributes rcontent epilog mvattributes mvcontent Hp Hmv Hsv.
    rewrite parseModelDescription_document by assumption.
    unfold parseRoot. destruct (parseModelDescriptionBase _) as [b|e]; simpl; [|eauto].
    apply (for_each_fails _ _ ("ModelVariables", element_tree mvattributes mvcontent)).
    + now apply In_children_element.
    + intros st. destruct Hfail as [e He].
      destruct (mapM_fails parseScalarVariable
                  (elements_named "ScalarVariable" mvcontent) _ e
                  (In_elements_named _ _ _ _ Hsv) He) as [e' He'].
      exists e'. unfold root_child. simpl fst. simpl snd.
      change (String.eqb "ModelVariables" "CoSimulation") with false.
      change (String.eqb "ModelVariables" "ModelExchange") with false.
      change (String.eqb "ModelVariables" "DefaultExperiment") with false.
      change (String.eqb "ModelVariables" "ModelVariables") with true.
      cbv iota. rewrite parseModelVariables_element, He'. reflexivity.
Qed.

End Untyped.

(** Claim C5 fails on the error: the variable [x] without a typed child is
    refused with the fixed runtime error, in which the name does not occur,
    and the variable [y] is refused with the very same error. *)
Lemma untyped_variable_error_is_anonymous :
  parseScalarVariable (ext := example_externals)
    (element_tree (fst (untyped_variable "x")) (snd (untyped_variable "x")))
  = Err (runtime_error "FATAL: Failed to parse ScalarVariable!") /\
  error_carries (runtime_error "FATAL: Failed to parse ScalarVariable!") "x" = false /\
  parseScalarVariable (ext := example_externals)
    (element_tree (fst (untyped_variable "y")) (snd (untyped_variable "y")))
  = Err (runtime_error "FATAL: Failed to parse ScalarVariable!").
Proof. repeat split; vm_compute; reflexivity. Qed.

Lemma untyped_scalar_variable_fails_witness :
  parseScalarVariable (ext := example_externals)
    (element_tree (fst (untyped_variable "x")) (snd (untyped_variable "x")))
  = Err (runtime_error "FATAL: Failed to parse ScalarVariable!").
Proof.
  destruct (untyped_scalar_variable_fails (ext := example_externals)
              (fst (untyped_variable "x")) (snd (untyped_variable "x")))
    as (_ & H & _).
  - intros tag a sub [Hin|[]]; discriminate.
  - apply (H "x" "1" 1%Z); reflexivity.
Defined.

(** ** Sections that occur several times *)

Lemma mapM_app_OK {A B} (f : A -> result B) l1 l2 zs :
  mapM f (l1 ++ l2) = OK zs <->
  exists xs ys, mapM f l1 = OK xs /\ mapM f l2 = OK ys /\ zs = xs ++ ys.
Proof.
  rewrite mapM_app. split.
  - intros H. apply bind_OK in H as (xs & Hx & H). apply bind_OK in H as (ys & Hy & H).
    inversion H; subst. eauto.
  - intros (xs & ys & Hx & Hy & ->). rewrite Hx, Hy. reflexivity.
Qed.

Lemma loadUnknowns_collect node vector :
  loadUnknowns node vector
  = let* us := mapM parseUnknown (select "Unknown" (children node)) in OK (vector ++ us).
Proof. apply for_each_collect. Qed.

Lemma parseSourceFiles_collect node files :
  parseSourceFiles node files
  = let* fs := mapM parseFile (select "File" (children node)) in OK (files ++ fs).
Proof. apply for_each_collect. Qed.

Lemma entries_of_cons_eq section entry v vs :
  String.eqb (fst v) section = true ->
  entries_of section entry (v :: vs)
  = select entry (children (snd v)) ++ entries_of section entry vs.
Proof. intros H. unfold entries_of, select. simpl. rewrite H. reflexivity. Qed.

Lemma entries_of_cons_neq section entry v vs :
  String.eqb (fst v) section = false ->
  entries_of section entry (v :: vs) = entries_of section entry vs.
Proof. intros H. unfold entries_of, select. simpl. rewrite H. reflexivity. Qed.

Lemma structure_loop vs : forall st st',
  for_each parseModelStructure_body vs st = OK st' <->
  exists o d i,
    mapM parseUnknown (entries_of "Outputs" "Unknown" vs) = OK o /\
    mapM parseUnknown (entries_of "Derivatives" "Unknown" vs) = OK d /\
    mapM parseUnknown (entries_of "InitialUnknowns" "Unknown" vs) = OK i /\
    st' = {| outputs := outputs st ++ o;
             derivatives := derivatives st ++ d;
             initialUnknowns := initialUnknowns st ++ i |}.
Proof.
  induction vs as [|v vs IH]; intros st st'.
  - simpl. split.
    + intros H; inversion H; subst. exists [], [], []. rewrite !app_nil_r.
      destruct st'; auto.
    + intros (o & d & i & Ho & Hd & Hi & ->). inversion Ho; inversion Hd; inversion Hi.
      rewrite !app_nil_r. destruct st; reflexivity.
  - simpl for_each. rewrite bind_OK. unfold parseModelStructure_body at 1.
    destruct (String.eqb_spec (fst v) "Outputs") as [E1|N1].
    { rewrite (entries_of_cons_eq "Outputs") by (rewrite E1; reflexivity).
      rewrite !entries_of_cons_neq by (rewrite E1; reflexivity).
      rewrite loadUnknowns_collect. split.
      - intros (st1 & H1 & H2). apply bind_OK in H1 as (x & Hx & H1).
        apply bind_OK in Hx as (us & Hus & Hx). inversion Hx; subst x. inversion H1; subst st1.
        apply IH in H2 as (o & d & i & Ho & Hd & Hi & ->). simpl.
        exists (us ++ o), d, i. rewrite app_assoc. repeat split; auto.
        apply mapM_app_OK. eauto.
      - intros (o & d & i & Ho & Hd & Hi & ->).
        apply mapM_app_OK in Ho as (us & o' & Hus & Ho' & ->).
        rewrite Hus. simpl. eexists. split; [reflexivity|].
        apply IH. exists o', d, i. simpl. rewrite app_assoc. auto. }
    destruct (String.eqb_spec (fst v) "Derivatives") as [E2|N2].
    { rewrite (entries_of_cons_eq "Derivatives") by (rewrite E2; reflexivity).
      rewrite !entries_of_cons_neq by (rewrite E2; reflexivity).
      rewrite loadUnknowns_collect. split.
      - intros (st1 & H1 & H2). apply bind_OK in H1 as (x & Hx & H1).
        apply bind_OK in Hx as (us & Hus & Hx). inversion Hx; subst x. inversion H1; subst st1.
        apply IH in H2 as (o & d & i & Ho & Hd & Hi & ->). simpl.
        exists o, (us ++ d), i. rewrite app_assoc. repeat split; auto.
        apply mapM_app_OK. eauto.
      - intros (o & d & i & Ho & Hd & Hi & ->).
        apply mapM_app_OK in Hd as (us & d' & Hus & Hd' & ->).
        rewrite Hus. simpl. eexists. split; [reflexivity|].
        apply IH. exists o, d', i. simpl. rewrite app_assoc. auto. }
    destruct (String.eqb_spec (fst v) "InitialUnknowns") as [E3|N3].
    { rewrite (entries_of_cons_eq "InitialUnknowns") by (rewrite E3; reflexivity).
      rewrite !entries_of_cons_neq by (rewrite E3; reflexivity).
      rewrite loadUnknowns_collect. split.
      - intros (st1 & H1 & H2). apply bind_OK in H1 as (x & Hx & H1).
        apply bind_OK in Hx as (us & Hus & Hx). inversion Hx; subst x. inversion H1; subst st1.
        apply IH in H2 as (o & d & i & Ho & Hd & Hi & ->). simpl.
        exists o, d, (us ++ i). rewrite app_assoc. repeat split; auto.
        apply mapM_app_OK. eauto.
      - intros (o & d & i & Ho & Hd & Hi & ->).
        apply mapM_app_OK in Hi as (us & i' & Hus & Hi' & ->).
        rewrite Hus. simpl. eexists. split; [reflexivity|].
        apply IH. exists o, d, i'. simpl. rewrite app_assoc. auto. }
    rewrite !entries_of_cons_neq by (now apply String.eqb_neq).
    split.
    + intros (st1 & H1 & H2). inversion H1; subst st1. now apply IH.
    + intros H. exists st. split; [reflexivity|]. now apply IH.
Qed.

Lemma set_sourceFiles_id a : set_sourceFiles a (sourceFiles a) = a.
Proof. destruct a; reflexivity. Qed.

Lemma sourceFiles_loop vs : forall a,
  for_each (fun v attributes =>
              if String.eqb (fst v) "SourceFiles" then
                let* files := parseSourceFiles (snd v) (sourceFiles attributes) in
                OK (set_sourceFiles attributes files)
              else OK attributes) vs a
  = let* fs := mapM parseFile (entries_of "SourceFiles" "File" vs) in
    OK (set_sourceFiles a (sourceFiles a ++ fs)).
Proof.
  induction vs as [|v vs IH]; intros a.
  - simpl. now rewrite app_nil_r, set_sourceFiles_id.
  - simpl for_each. destruct (String.eqb (fst v) "SourceFiles") eqn:E.
    + rewrite entries_of_cons_eq by assumption. rewrite mapM_app.
      rewrite parseSourceFiles_collect.
      destruct (mapM parseFile (select "File" (children (snd v)))) as [fs|e]; simpl;
        [|reflexivity].
      rewrite IH. simpl.
      destruct (mapM parseFile (entries_of "SourceFiles" "File" vs)); simpl; [|reflexivity].
      now rewrite app_assoc.
    + rewrite entries_of_cons_neq by assumption. simpl. apply IH.
Qed.

(** Claim C10: several sections with the same tag are neither refused nor
    do they replace one another.  [parseModelStructure] succeeds exactly when
    every [<Unknown>] of every [<Outputs>], [<Derivatives>] and
    [<InitialUnknowns>] section parses, and each of its three lists is then
    the entries of all sections with that tag, in document order; likewise
    the [sourceFiles] of a flavour element are the [<File>] entries of all
    its [<SourceFiles>] sections, in document order. *)
Theorem repeated_sections_are_appended node :
  (forall ms,
      parseModelStructure node = OK ms <->
      mapM parseUnknown (entries "Outputs" "Unknown" node) = OK (outputs ms) /\
      mapM parseUnknown (entries "Derivatives" "Unknown" node) = OK (derivatives ms) /\
      mapM parseUnknown (entries "InitialUnknowns" "Unknown" node)
      = OK (initialUnknowns ms)) /\
  parseFmuAttributes node
  = (let* modelIdentifier := get tr_string "<xmlattr>.modelIdentifier" node in
     let* files := mapM parseFile (entries "SourceFiles" "File" node) in
     OK {| modelIdentifier := modelIdentifier;
           needsExecutionTool :=
             get_or tr_bool "xmlattr>.needsExecutionTool" false node;
           canGetAndSetFMUstate :=
             get_or tr_bool "xmlattr>.canGetAndSetFMUstate" false node;
           canSerializeFMUstate :=
             get_or tr_bool "xmlattr>.canSerializeFMUstate" false node;
           providesDirectionalDerivative :=
             get_or tr_bool "xmlattr>.providesDirectionalDerivative" false node;
           canNotUseMemoryManagementFunctions :=
             get_or tr_bool "xmlattr>.canNotUseMemoryManagementFunctions" false node;
           canBeInstantiatedOnlyOncePerProcess :=
             get_or tr_bool "xmlattr>.canBeInstantiatedOnlyOncePerProcess" false node;
           sourceFiles := files |}).
Proof.
  split.
  - intros ms. unfold parseModelStructure, entries. rewrite structure_loop. simpl. split.
    + intros (o & d & i & Ho & Hd & Hi & ->). simpl. auto.
    + intros (Ho & Hd & Hi). exists (outputs ms), (derivatives ms), (initialUnknowns ms).
      destruct ms; auto.
  - unfold parseFmuAttributes, entries.
    destruct (get tr_string "<xmlattr>.modelIdentifier" node) as [mi|e]; [|reflexivity].
    cbn [bind]. rewrite sourceFiles_loop. reflexivity.
Qed.

(** Two [<Outputs>] sections, around a [<Derivatives>] section: the outputs
    of both are kept, in document order. *)
Example two_outputs_sections :
  parseModelStructure
    (element_tree []
       [Element "Outputs" [] [Element "Unknown" [("index", "3")] []];
        Element "Derivatives" [] [Element "Unknown" [("index", "4")] []];
        Element "Outputs" [] [Element "Unknown" [("index", "5")] [];
                              Element "Unknown" [("index", "6")] []]])
  = OK {| outputs :=
            [ {| index := 3; dependencies := None; dependenciesKind := None |};
              {| index := 5; dependencies := None; dependenciesKind := None |};
              {| index := 6; dependencies := None; dependenciesKind := None |} ];
          derivatives :=
            [ {| index := 4; dependencies := None; dependenciesKind := None |} ];
          initialUnknowns := [] |}.
Proof. vm_compute. reflexivity. Qed.

(** ** The loop over the children of the root *)

Section RootLoop.

Context {ext : Externals}.

Lemma root_child_slot v st :
  root_child v st
  = match slot_of (fst v) with
    | Some slot_coSimulation =>
        let* cs := parseCoSimulationAttributes (snd v) in
        OK {| base := base st; coSimulation := Some cs; modelExchange := modelExchange st |}
    | Some slot_modelExchange =>
        let* me := parseModelExchangeAttributes (snd v) in
        OK {| base := base st; coSimulation := coSimulation st; modelExchange := Some me |}
    | Some slot_defaultExperiment =>
        OK {| base := set_defaultExperiment (base st) (Some (parseDefaultExperiment (snd v)));
              coSimulation := coSimulation st; modelExchange := modelExchange st |}
    | Some slot_modelVariables =>
        let* mv := parseModelVariables (snd v) in
        OK {| base := set_modelVariables (base st) (Some mv);
              coSimulation := coSimulation st; modelExchange := modelExchange st |}
    | Some slot_modelStructure =>
        let* ms := parseModelStructure (snd v) in
        OK {| base := set_modelStructure (base st) (Some ms);
              coSimulation := coSimulation st; modelExchange := modelExchange st |}
    | None => OK st
    end.
Proof.
  unfold root_child, slot_of.
  destruct (String.eqb (fst v) "CoSimulation"); [reflexivity|].
  destruct (String.eqb (fst v) "ModelExchange"); [reflexivity|].
  destruct (String.eqb (fst v) "DefaultExperiment"); [reflexivity|].
  destruct (String.eqb (fst v) "ModelVariables"); [reflexivity|].
  destruct (String.eqb (fst v) "ModelStructure"); reflexivity.
Qed.

(** Two children that fill different slots, or of which one fills none, can
    be processed in either order. *)
Lemma root_child_swap x y st r :
  NoDup (slots [x; y]) ->
  (let* s := root_child x st in root_child y s) = OK r ->
  (let* s := root_child y st in root_child x s) = OK r.
Proof.
  unfold slots. simpl. intros Hnd.
  destruct (slot_of (fst x)) as [sx|] eqn:Ex; destruct (slot_of (fst y)) as [sy|] eqn:Ey;
    try destruct sx; try destruct sy;
    try (exfalso; inversion Hnd as [|? ? Hn _]; apply Hn; now left);
    rewrite (root_child_slot x st), (root_child_slot y st), Ex, Ey;
    repeat match goal with
      | E : ?m = _ |- context [bind ?m _] => rewrite E
      | |- context [bind (parseCoSimulationAttributes ?t) _] =>
          destruct (parseCoSimulationAttributes t) eqn:?
      | |- context [bind (parseModelExchangeAttributes ?t) _] =>
          destruct (parseModelExchangeAttributes t) eqn:?
      | |- context [bind (parseModelVariables ?t) _] =>
          destruct (parseModelVariables t) eqn:?
      | |- context [bind (parseModelStructure ?t) _] =>
          destruct (parseModelStructure t) eqn:?
      | _ => progress (cbn [bind])
      | _ => rewrite root_child_slot; rewrite ?Ex, ?Ey
      end;
    intros H; try discriminate; exact H.
Qed.

Lemma slots_app l1 l2 : slots (l1 ++ l2) = slots l1 ++ slots l2.
Proof. apply flat_map_app. Qed.

Lemma NoDup_slots_tail x l : NoDup (slots (x :: l)) -> NoDup (slots l).
Proof.
  change (x :: l) with ([x] ++ l). rewrite slots_app. apply NoDup_app_remove_l.
Qed.

Lemma NoDup_slots_pair x y l : NoDup (slots (x :: y :: l)) -> NoDup (slots [x; y]).
Proof.
  change (x :: y :: l) with ([x; y] ++ l). rewrite slots_app. apply NoDup_app_remove_r.
Qed.

Lemma Permutation_slots l1 l2 : Permutation l1 l2 -> Permutation (slots l1) (slots l2).
Proof. apply Permutation_flat_map. Qed.

(** The loop over the children of the root does not observe their order, as
    long as no slot is filled twice. *)
Lemma root_loop_permutation l1 l2 :
  Permutation l1 l2 ->
  NoDup (slots l1) ->
  forall st r, for_each root_child l1 st = OK r -> for_each root_child l2 st = OK r.
Proof.
  induction 1 as [|x l1 l2 Hp IH|x y l|l1 l2 l3 H12 IH12 H23 IH23]; intros Hnd st r.
  - auto.
  - simpl. destruct (root_child x st); simpl; [|discriminate].
    apply IH. eapply NoDup_slots_tail, Hnd.
  - simpl. intros H.
    assert (Hs : (let* s := (let* s := root_child y st in root_child x s) in
                  for_each root_child l s) = OK r).
    { destruct (root_child y st); simpl in *; [|discriminate]. exact H. }
    apply bind_OK in Hs as (s & Hs & Hl).
    apply root_child_swap in Hs.
    + destruct (root_child x st); simpl in *; [|discriminate]. now rewrite Hs.
    + eapply NoDup_slots_pair, Hnd.
  - intros H. apply IH23.
    + eapply Permutation_NoDup; [|exact Hnd]. now apply Permutation_slots.
    + now apply IH12.
Qed.

End RootLoop.

(** ** The root element: attributes and slots *)

Lemma find_app {A} (p : A -> bool) l1 l2 :
  List.find p (l1 ++ l2)
  = match List.find p l1 with Some x => Some x | None => List.find p l2 end.
Proof.
  induction l1 as [|x l1 IH]; simpl; [reflexivity|]. destruct (p x); auto.
Qed.

Lemma element_names_cons n content :
  element_names (n :: content)
  = match n with Element name _ _ => [name] | _ => [] end ++ element_names content.
Proof. reflexivity. Qed.

Lemma NoDup_element_names_tail n content :
  NoDup (element_names (n :: content)) -> NoDup (element_names content).
Proof. rewrite element_names_cons. apply NoDup_app_remove_l. Qed.

Lemma Permutation_element_names c1 c2 :
  Permutation c1 c2 -> Permutation (element_names c1) (element_names c2).
Proof. apply Permutation_flat_map. Qed.

(** With pairwise distinct tags, the first child with a given key does not
    depend on the order of the content. *)
Lemma find_content_permutation key c1 c2 :
  Permutation c1 c2 -> NoDup (element_names c1) ->
  List.find (fun kv : string * ptree => String.eqb (fst kv) key) (flat_map node_children c1)
  = List.find (fun kv : string * ptree => String.eqb (fst kv) key) (flat_map node_children c2)
  \/ key = xmlcomment.
Proof.
  destruct (String.eqb_spec key xmlcomment) as [->|Hk]; [now right|].
  intros Hp Hnd. left.
  induction Hp as [|n c1 c2 Hp IH|x y c|c1 c2 c3 H12 IH12 H23 IH23].
  - reflexivity.
  - simpl. rewrite !find_app, IH; [reflexivity|].
    eapply NoDup_element_names_tail, Hnd.
  - simpl. rewrite !find_app.
    destruct x as [nx ax sx| |], y as [ny ay sy| |]; simpl; try reflexivity;
      repeat match goal with
             | |- context [String.eqb ?a key] => destruct (String.eqb_spec a key)
             end;
      try congruence; try reflexivity.
    exfalso. subst. inversion Hnd as [|? ? Hn _]. apply Hn. now left.
  - rewrite IH12 by assumption. apply IH23.
    eapply Permutation_NoDup; [|exact Hnd]. now apply Permutation_element_names.
Qed.

Lemma find_xmlattr_permutation attributes c1 c2 :
  Permutation c1 c2 -> NoDup (element_names c1) ->
  find xmlattr (element_tree attributes c1) = find xmlattr (element_tree attributes c2).
Proof.
  intros Hp Hnd. unfold find, element_tree. rewrite !children_read_nodes. simpl.
  rewrite !find_app.
  destruct (find_content_permutation xmlattr c1 c2 Hp Hnd) as [->|H]; [reflexivity|].
  discriminate.
Qed.

Lemma get_child_optional_ext path k t1 t2 :
  fragments path = [xmlattr; k] ->
  find xmlattr t1 = find xmlattr t2 ->
  get_child_optional path t1 = get_child_optional path t2.
Proof.
  intros Hp H. unfold get_child_optional. rewrite Hp. simpl. now rewrite H.
Qed.

Section RootAttributes.

Context {ext : Externals}.

(** The base fields are read from the attributes only. *)
Lemma parseModelDescriptionBase_ext t1 t2 :
  find xmlattr t1 = find xmlattr t2 ->
  parseModelDescriptionBase t1 = parseModelDescriptionBase t2.
Proof.
  intros H.
  unfold parseModelDescriptionBase, get, get_or, get_optional, get_child.
  repeat match goal with
         | |- context [get_child_optional ?p t1] =>
             rewrite (get_child_optional_ext p _ t1 t2 eq_refl H)
         end.
  reflexivity.
Qed.

End RootAttributes.

Lemma slot_of_Some a s :
  slot_of a = Some s ->
  a = match s with
      | slot_coSimulation => "CoSimulation"
      | slot_modelExchange => "ModelExchange"
      | slot_defaultExperiment => "DefaultExperiment"
      | slot_modelVariables => "ModelVariables"
      | slot_modelStructure => "ModelStructure"
      end.
Proof.
  unfold slot_of.
  repeat match goal with
         | |- context [String.eqb a ?t] => destruct (String.eqb_spec a t)
         end;
    intros H; inversion H; subst; reflexivity.
Qed.

Lemma slot_of_injective a b s : slot_of a = Some s -> slot_of b = Some s -> a = b.
Proof. intros Ha Hb. apply slot_of_Some in Ha, Hb. congruence. Qed.

Lemma slots_element_tree attributes content :
  slots (children (element_tree attributes content)) = slots (flat_map node_children content).
Proof.
  unfold element_tree. rewrite children_read_nodes, slots_app.
  destruct attributes; reflexivity.
Qed.

Lemma In_slots_content s content :
  In s (slots (flat_map node_children content)) ->
  exists name, In name (element_names content) /\ slot_of name = Some s.
Proof.
  induction content as [|n content IH]; simpl; [contradiction|].
  rewrite slots_app, in_app_iff. intros [H|H].
  - destruct n as [nm a sub| |]; simpl in H.
    + unfold slots in H. simpl in H. destruct (slot_of nm) as [s'|] eqn:E; simpl in H.
      * destruct H as [->|[]]. exists nm. split; [now left|assumption].
      * contradiction.
    + contradiction.
    + unfold slots in H. simpl in H. contradiction.
  - destruct (IH H) as (nm & Hin & Hs). exists nm. split; [|assumption].
    apply in_or_app. now right.
Qed.

Lemma NoDup_slots_content content :
  NoDup (element_names content) -> NoDup (slots (flat_map node_children content)).
Proof.
  induction content as [|n content IH]; simpl; intros Hnd; [constructor|].
  rewrite slots_app.
  pose proof (NoDup_element_names_tail _ _ Hnd) as Hnd'.
  destruct n as [nm a sub| |]; simpl.
  - unfold slots at 1. simpl. destruct (slot_of nm) as [s|] eqn:E; simpl; [|auto].
    constructor; [|auto]. intros Hin.
    apply In_slots_content in Hin as (nm' & Hin & Hs).
    assert (nm' = nm) by (eapply slot_of_injective; eassumption). subst nm'.
    inversion Hnd; contradiction.
  - auto.
  - unfold slots at 1. simpl. auto.
Qed.

(** ** Order of the children of the root *)

Lemma Permutation_children attributes c1 c2 :
  Permutation c1 c2 ->
  Permutation (children (element_tree attributes c1)) (children (element_tree attributes c2)).
Proof.
  intros Hp. unfold element_tree. rewrite !children_read_nodes.
  apply Permutation_app_head. now apply Permutation_flat_map.
Qed.

Section RootOrder.

Context {ext : Externals}.

Lemma parseRoot_permutation attributes c1 c2 md :
  Permutation c1 c2 -> NoDup (element_names c1) ->
  parseRoot (element_tree attributes c1) = OK md ->
  parseRoot (element_tree attributes c2) = OK md.
Proof.
  intros Hp Hnd. unfold parseRoot.
  rewrite (parseModelDescriptionBase_ext _ (element_tree attributes c2))
    by now apply find_xmlattr_permutation.
  destruct (parseModelDescriptionBase (element_tree attributes c2)) as [b|e];
    [|discriminate].
  cbn [bind]. apply root_loop_permutation.
  - now apply Permutation_children.
  - rewrite slots_element_tree. now apply NoDup_slots_content.
Qed.

(** Claim C9: two documents that differ only in the order of the children
    of the root, the children carrying pairwise distinct tags, yield the same
    description: whatever one parses to, the other parses to as well. *)
Theorem root_children_order_irrelevant prolog attributes content1 content2 epilog :
  forallb not_element prolog = true ->
  NoDup (element_names content1) ->
  Permutation content1 content2 ->
  forall md,
    parseModelDescription (fmi_document prolog attributes content1 epilog) = OK md <->
    parseModelDescription (fmi_document prolog attributes content2 epilog) = OK md.
Proof.
  intros Hprolog Hnd Hp md.
  rewrite !parseModelDescription_document by assumption. split.
  - now apply parseRoot_permutation.
  - apply parseRoot_permutation.
    + now apply Permutation_sym.
    + eapply Permutation_NoDup; [|exact Hnd]. now apply Permutation_element_names.
Qed.

End RootOrder.

Lemma root_children_order_irrelevant_witness :
  exists md,
    parseModelDescription (ext := example_externals)
      (fmi_document [Comment "header"] root_attributes both_flavours_content []) = OK md /\
    parseModelDescription (ext := example_externals)
      (fmi_document [Comment "header"] root_attributes both_flavours_reordered []) = OK md.
Proof.
  eexists. split; [vm_compute; reflexivity|].
  apply (root_children_order_irrelevant (ext := example_externals)
           [Comment "header"] root_attributes both_flavours_content
           both_flavours_reordered []).
  - reflexivity.
  - repeat constructor; simpl; intuition discriminate.
  - unfold both_flavours_content, both_flavours_reordered.
    apply (Permutation_cons_app
             [Element "CoSimulation" [("modelIdentifier", "cs"); ("canInterpolateInputs", "1")] [];
              Element "ModelStructure" [] []]
             [Element "ModelExchange" [("modelIdentifier", "me")] [];
              Element "ModelVariables" [] []]
             (Comment "flavours")).
    apply (Permutation_cons_app
             [Element "CoSimulation" [("modelIdentifier", "cs"); ("canInterpolateInputs", "1")] [];
              Element "ModelStructure" [] []]
             [Element "ModelVariables" [] []]
             (Element "ModelExchange" [("modelIdentifier", "me")] [])).
    apply perm_skip, perm_swap.
  - vm_compute. reflexivity.
Defined.

(** ** Documents without [<ModelVariables>] or [<ModelStructure>] *)

Lemma not_In_slots_content s content tag attributes :
  slot_of tag = Some s ->
  ~ In tag (element_names content) ->
  ~ In s (slots (children (element_tree attributes content))).
Proof.
  intros Hs Hn Hin. rewrite slots_element_tree in Hin.
  apply In_slots_content in Hin as (nm & Hin & Hnm).
  assert (nm = tag) by (eapply slot_of_injective; eassumption). now subst.
Qed.

Lemma children_snoc attributes content n :
  children (element_tree attributes (content ++ [n]))
  = children (element_tree attributes content) ++ node_children n.
Proof.
  unfold element_tree. rewrite !children_read_nodes, flat_map_app. simpl.
  now rewrite app_nil_r, app_assoc.
Qed.

Lemma find_xmlattr_snoc attributes content name a sub :
  name <> xmlattr ->
  find xmlattr (element_tree attributes (content ++ [Element name a sub]))
  = find xmlattr (element_tree attributes content).
Proof.
  intros Hn. unfold find. rewrite children_snoc, find_app. simpl.
  destruct (List.find _ (children (element_tree attributes content))); [reflexivity|].
  destruct (String.eqb_spec name xmlattr); [contradiction|reflexivity].
Qed.

Section MissingSections.

Context {ext : Externals}.

Lemma root_child_keeps_variables v st st' :
  slot_of (fst v) <> Some slot_modelVariables ->
  root_child v st = OK st' ->
  modelVariables (base st') = modelVariables (base st).
Proof.
  rewrite root_child_slot. intros Hs.
  destruct (slot_of (fst v)) as [[]|]; try congruence;
    repeat match goal with
           | |- context [bind ?m _] => destruct m; cbn [bind]
           end;
    intros H; inversion H; reflexivity.
Qed.

Lemma root_child_keeps_structure v st st' :
  slot_of (fst v) <> Some slot_modelStructure ->
  root_child v st = OK st' ->
  modelStructure (base st') = modelStructure (base st).
Proof.
  rewrite root_child_slot. intros Hs.
  destruct (slot_of (fst v)) as [[]|]; try congruence;
    repeat match goal with
           | |- context [bind ?m _] => destruct m; cbn [bind]
           end;
    intros H; inversion H; reflexivity.
Qed.

Lemma root_loop_keeps_variables vs : forall st st',
  ~ In slot_modelVariables (slots vs) ->
  for_each root_child vs st = OK st' ->
  modelVariables (base st') = modelVariables (base st).
Proof.
  induction vs as [|v vs IH]; intros st st' Hn H.
  - inversion H; reflexivity.
  - simpl in H. apply bind_OK in H as (st1 & H1 & H).
    change (v :: vs) with ([v] ++ vs) in Hn. rewrite slots_app, in_app_iff in Hn.
    rewrite (IH st1 st') by tauto.
    apply (root_child_keeps_variables v); [|assumption].
    intros Hv. apply Hn. left. unfold slots. simpl. rewrite Hv. now left.
Qed.

Lemma root_loop_keeps_structure vs : forall st st',
  ~ In slot_modelStructure (slots vs) ->
  for_each root_child vs st = OK st' ->
  modelStructure (base st') = modelStructure (base st).
Proof.
  induction vs as [|v vs IH]; intros st st' Hn H.
  - inversion H; reflexivity.
  - simpl in H. apply bind_OK in H as (st1 & H1 & H).
    change (v :: vs) with ([v] ++ vs) in Hn. rewrite slots_app, in_app_iff in Hn.
    rewrite (IH st1 st') by tauto.
    apply (root_child_keeps_structure v); [|assumption].
    intros Hv. apply Hn. left. unfold slots. simpl. rewrite Hv. now left.
Qed.

Lemma parseRoot_unset attributes content md :
  parseRoot (element_tree attributes content) = OK md ->
  (~ In "ModelVariables" (element_names content) -> modelVariables (base md) = None) /\
  (~ In "ModelStructure" (element_names content) -> modelStructure (base md) = None).
Proof.
  unfold parseRoot. intros H. apply bind_OK in H as (b & Hb & H).
  assert (Hmv : modelVariables b = None /\ modelStructure b = None).
  { unfold parseModelDescriptionBase in Hb.
    repeat (apply bind_OK in Hb as (? & _ & Hb)). inversion Hb. split; reflexivity. }
  destruct Hmv as [Hmv Hms]. split; intros Hn.
  - rewrite <- Hmv.
    apply (root_loop_keeps_variables _ _ _
             (not_In_slots_content _ content "ModelVariables" attributes eq_refl Hn) H).
  - rewrite <- Hms.
    apply (root_loop_keeps_structure _ _ _
             (not_In_slots_content _ content "ModelStructure" attributes eq_refl Hn) H).
Qed.

(** Appending an element to the root runs its case of the loop last. *)
Lemma parseRoot_snoc attributes content name a sub :
  name <> xmlattr ->
  parseRoot (element_tree attributes (content ++ [Element name a sub]))
  = let* md := parseRoot (element_tree attributes content) in
    root_child (name, element_tree a sub) md.
Proof.
  intros Hn. unfold parseRoot.
  rewrite (parseModelDescriptionBase_ext _ (element_tree attributes content))
    by now apply find_xmlattr_snoc.
  destruct (parseModelDescriptionBase (element_tree attributes content)) as [b|e];
    [|reflexivity].
  cbn [bind]. rewrite children_snoc, for_each_app. simpl node_children.
  destruct (for_each root_child _ _); [|reflexivity].
  cbn [bind for_each]. destruct (root_child _ _); reflexivity.
Qed.

(** Claim C8, amended: a root without [<ModelVariables>] (without
    [<ModelStructure>]) is accepted, and the description returned leaves the
    component unset, which is not the empty collection: the document parses
    exactly when the same document with an empty such element added at the
    end parses, and the two descriptions differ in that component only,
    unset in the one and empty in the other. *)
Theorem missing_sections_left_unset prolog attributes content epilog :
  forallb not_element prolog = true ->
  (forall md,
      parseModelDescription (fmi_document prolog attributes content epilog) = OK md ->
      (~ In "ModelVariables" (element_names content) -> modelVariables (base md) = None) /\
      (~ In "ModelStructure" (element_names content) -> modelStructure (base md) = None)) /\
  parseModelDescription
    (fmi_document prolog attributes (content ++ [Element "ModelVariables" [] []]) epilog)
  = (let* md := parseModelDescription (fmi_document prolog attributes content epilog) in
     OK {| base := set_modelVariables (base md) (Some {| variables := [] |});
           coSimulation := coSimulation md;
           modelExchange := modelExchange md |}) /\
  parseModelDescription
    (fmi_document prolog attributes (content ++ [Element "ModelStructure" [] []]) epilog)
  = (let* md := parseModelDescription (fmi_document prolog attributes content epilog) in
     OK {| base :=
             set_modelStructure (base md)
               (Some {| outputs := []; derivatives := []; initialUnknowns := [] |});
           coSimulation := coSimulation md;
           modelExchange := modelExchange md |}).
Proof.
  intros Hp. rewrite !parseModelDescription_document by assumption.
  split; [intros md; apply parseRoot_unset|].
  split.
  - rewrite parseRoot_snoc by discriminate.
    destruct (parseRoot (element_tree attributes content)); reflexivity.
  - rewrite parseRoot_snoc by discriminate.
    destruct (parseRoot (element_tree attributes content)); reflexivity.
Qed.

End MissingSections.

(** Claim C8 fails on the value returned: Scenario A without its
    [<ModelVariables>] and [<ModelStructure>] parses, and both components of
    the description are unset rather than empty collections. *)
Lemma bare_document_unset :
  exists md,
    parseModelDescription (ext := example_externals) bare_document = OK md /\
    modelVariables (base md) = None /\
    modelStructure (base md) = None /\
    modelVariables (base md) <> Some {| variables := [] |} /\
    modelStructure (base md)
    <> Some {| outputs := []; derivatives := []; initialUnknowns := [] |}.
Proof.
  eexists. split; [vm_compute; reflexivity|]. cbn.
  repeat split; discriminate.
Qed.

Lemma missing_sections_left_unset_witness :
  forallb not_element [Comment "header"] = true /\
  exists md,
    parseModelDescription (ext := example_externals)
      (fmi_document [Comment "header"] root_attributes
                    [Element "CoSimulation" [("modelIdentifier", "m")] []] []) = OK md /\
    modelVariables (base md) = None /\
    modelStructure (base md) = None.
Proof.
  split; [reflexivity|].
  destruct (missing_sections_left_unset (ext := example_externals)
              [Comment "header"] root_attributes
              [Element "CoSimulation" [("modelIdentifier", "m")] []] [] eq_refl)
    as (H & _).
  eexists. split; [vm_compute; reflexivity|].
  match goal with
  | |- ?a = None /\ ?b = None =>
      match a with
      | modelVariables (base ?md) => destruct (H md) as [H1 H2]; [vm_compute; reflexivity|]
      end
  end.
  split; [apply H1|apply H2]; simpl; intuition discriminate.
Defined.

(** ** The variables of a document *)

Section DocumentVariables.

Context {ext : Externals}.

(** In a document whose root children carry distinct tags, the variables of
    the description are those of its [<ModelVariables>] element. *)
Lemma parseRoot_variables rattributes rcontent attributes content md :
  NoDup (element_names rcontent) ->
  In (Element "ModelVariables" attributes content) rcontent ->
  parseRoot (element_tree rattributes rcontent) = OK md ->
  exists mv,
    parseModelVariables (element_tree attributes content) = OK mv /\
    modelVariables (base md) = Some mv.
Proof.
  intros Hnd Hin H.
  apply in_split in Hin as (l1 & l2 & ->).
  apply (parseRoot_permutation _ _
           ((l1 ++ l2) ++ [Element "ModelVariables" attributes content])) in H.
  - rewrite parseRoot_snoc in H by discriminate.
    apply bind_OK in H as (md0 & _ & H).
    rewrite root_child_slot in H. change (slot_of _) with (Some slot_modelVariables) in H.
    cbn iota in H. apply bind_OK in H as (mv & Hmv & H). inversion H; subst md.
    exists mv. split; [exact Hmv|reflexivity].
  - rewrite <- app_assoc. apply Permutation_app_head.
    change (l2 ++ [Element "ModelVariables" attributes content])
      with (l2 ++ Element "ModelVariables" attributes content :: []).
    rewrite <- Permutation_middle, app_nil_r. reflexivity.
  - assumption.
Qed.

(** Claim C6: [ModelVariables.variables] holds the parsed
    [<ScalarVariable>] children of the [<ModelVariables>] element, all of
    them and nothing else, in document order; children with another tag
    contribute nothing.  This is what [parseModelVariables] returns, and what
    the description of a document holds. *)
Theorem model_variables_in_document_order attributes content :
  parseModelVariables (element_tree attributes content)
  = (let* vs := mapM parseScalarVariable (elements_named "ScalarVariable" content) in
     OK {| variables := vs |}) /\
  (forall mv,
      parseModelVariables (element_tree attributes content) = OK mv ->
      Forall2 (fun sv v => parseScalarVariable sv = OK v)
              (elements_named "ScalarVariable" content) (variables mv)) /\
  (forall prolog rattributes rcontent epilog md,
      forallb not_element prolog = true ->
      NoDup (element_names rcontent) ->
      In (Element "ModelVariables" attributes content) rcontent ->
      parseModelDescription (fmi_document prolog rattributes rcontent epilog) = OK md ->
      exists mv,
        modelVariables (base md) = Some mv /\
        Forall2 (fun sv v => parseScalarVariable sv = OK v)
                (elements_named "ScalarVariable" content) (variables mv)).
Proof.
  pose proof (parseModelVariables_element attributes content) as H.
  assert (HF : forall mv,
             parseModelVariables (element_tree attributes content) = OK mv ->
             Forall2 (fun sv v => parseScalarVariable sv = OK v)
                     (elements_named "ScalarVariable" content) (variables mv)).
  { intros mv Hmv. rewrite H in Hmv. apply bind_OK in Hmv as (vs & Hvs & Hmv).
    inversion Hmv; subst; simpl. now apply mapM_Forall2. }
  split; [exact H|]. split; [exact HF|].
  intros prolog rattributes rcontent epilog md Hp Hnd Hin Hmd.
  rewrite parseModelDescription_document in Hmd by assumption.
  destruct (parseRoot_variables _ _ _ _ _ Hnd Hin Hmd) as (mv & Hmv & Hb).
  exists mv. split; [exact Hb|]. now apply HF.
Qed.

End DocumentVariables.

(** Two variables between a comment and a foreign element: the list holds
    the two, in the order of the document. *)
Example two_variables_parsed :
  exists mv,
    parseModelVariables (ext := example_externals) (element_tree [] two_variables) = OK mv /\
    map (fun v => name (sv_base v)) (variables mv) = ["a"; "b"].
Proof. eexists. split; [vm_compute; reflexivity|reflexivity]. Qed.

(** * Further properties *)

(** ** The list of dependencies *)

Lemma chars_app s1 s2 : chars (s1 ++ s2) = chars s1 ++ chars s2.
Proof. induction s1 as [|c s1 IH]; simpl; [reflexivity|]. unfold chars in *. now rewrite IH. Qed.

Lemma digit_value_nonneg c : isdigit c = true -> (0 <= digit_value c)%Z.
Proof.
  unfold isdigit, digit_value. intros H. apply andb_prop in H as [H1 _].
  apply Nat.leb_le in H1. lia.
Qed.

Lemma digits_nonneg s : forall acc taken v taken' rest,
  (0 <= acc)%Z -> digits acc taken s = (v, taken', rest) -> (0 <= v)%Z.
Proof.
  induction s as [|c s IH]; simpl; intros acc taken v taken' rest Hacc H.
  - inversion H; subst; assumption.
  - destruct (isdigit c) eqn:Hc.
    + eapply IH; [|exact H]. pose proof (digit_value_nonneg c Hc). lia.
    + inversion H; subst; assumption.
Qed.

Lemma extract_unsigned_range bits s v rest :
  (0 <= bits)%Z -> extract_unsigned bits s = Some (v, rest) -> (0 <= v < 2 ^ bits)%Z.
Proof.
  intros Hb. unfold extract_unsigned.
  destruct (sign (skipws s)) as [neg s1].
  destruct (digits 0 0 s1) as [[x taken] r] eqn:Hd.
  apply digits_nonneg in Hd; [|lia].
  destruct taken; [discriminate|].
  destruct (Z.ltb_spec x (2 ^ bits)) as [Hlt|_]; [|discriminate].
  intros He; inversion He; subst. destruct neg; [|lia].
  apply Z.mod_pos_bound. lia.
Qed.

Lemma parseUnknownDependencies_loop_app fuel : forall ss store,
  parseUnknownDependencies_loop fuel ss store
  = store ++ parseUnknownDependencies_loop fuel ss [].
Proof.
  induction fuel as [|fuel IH]; intros ss store; simpl.
  - now rewrite app_nil_r.
  - destruct (extract_unsigned 32 ss) as [[i rest]|]; [|now rewrite app_nil_r].
    destruct rest as [|c rest']; [reflexivity|].
    destruct (Ascii.eqb c "," || Ascii.eqb c " ");
      rewrite IH, (IH _ ([] ++ [i])), app_assoc; reflexivity.
Qed.

Lemma parseUnknownDependencies_loop_range fuel : forall ss store,
  Forall (fun x => 0 <= x < 2 ^ 32)%Z store ->
  Forall (fun x => 0 <= x < 2 ^ 32)%Z (parseUnknownDependencies_loop fuel ss store).
Proof.
  induction fuel as [|fuel IH]; intros ss store Hs; simpl; [assumption|].
  destruct (extract_unsigned 32 ss) as [[i rest]|] eqn:He; [|assumption].
  apply extract_unsigned_range in He; [|lia].
  assert (Hs' : Forall (fun x => 0 <= x < 2 ^ 32)%Z (store ++ [i])).
  { apply Forall_app. split; [assumption|]. constructor; [assumption|constructor]. }
  destruct rest as [|c rest']; [assumption|].
  destruct (Ascii.eqb c "," || Ascii.eqb c " "); apply IH; assumption.
Qed.

(** [parseUnknownDependencies] adds to the vector it is given, leaving what
    the vector holds in place, and every number it adds fits 32 bits: none
    is negative. *)
Theorem dependencies_appended_in_range str store :
  parseUnknownDependencies str store = store ++ parseUnknownDependencies str [] /\
  Forall (fun x => 0 <= x < 2 ^ 32)%Z (parseUnknownDependencies str []).
Proof.
  split.
  - apply parseUnknownDependencies_loop_app.
  - apply parseUnknownDependencies_loop_range. constructor.
Qed.

(** *** Text without a number *)

Lemma digits_none s acc :
  match s with c :: _ => isdigit c = false | [] => True end ->
  digits acc 0 s = (acc, 0%nat, s).
Proof. destruct s as [|c s]; simpl; [reflexivity|]. now intros ->. Qed.

Lemma skipws_no_digit s :
  forallb (fun c => negb (isdigit c)) s = true ->
  forallb (fun c => negb (isdigit c)) (skipws s) = true.
Proof.
  induction s as [|c s IH]; simpl; [reflexivity|]. intros H.
  destruct (isspace c); [apply IH|exact H].
  apply andb_prop in H. tauto.
Qed.

Lemma extract_unsigned_no_digit bits s :
  forallb (fun c => negb (isdigit c)) s = true -> extract_unsigned bits s = None.
Proof.
  intros H. apply skipws_no_digit in H. unfold extract_unsigned.
  assert (Hs : forallb (fun c => negb (isdigit c)) (snd (sign (skipws s))) = true).
  { destruct (skipws s) as [|c r]; simpl in *; [reflexivity|].
    apply andb_prop in H as [Hc Hr].
    destruct (Ascii.eqb c "-"); [exact Hr|]. destruct (Ascii.eqb c "+"); [exact Hr|].
    simpl. now rewrite Hc, Hr. }
  destruct (sign (skipws s)) as [neg s1]. simpl in Hs.
  rewrite digits_none; [reflexivity|].
  destruct s1 as [|c r]; [exact I|]. simpl in Hs. apply andb_prop in Hs as [Hc _].
  now apply negb_true_iff in Hc.
Qed.

(** A [dependencies] attribute without any digit adds nothing, and is no
    error. *)
Theorem dependencies_without_digit str store :
  forallb (fun c => negb (isdigit c)) (chars str) = true ->
  parseUnknownDependencies str store = store.
Proof.
  intros H. unfold parseUnknownDependencies. simpl.
  now rewrite extract_unsigned_no_digit.
Qed.

Lemma dependencies_without_digit_witness :
  parseUnknownDependencies "a, b" [7%Z] = [7%Z].
Proof. apply (dependencies_without_digit "a, b" [7%Z]). reflexivity. Defined.

(** *** Numerals read back *)

Lemma digits_stop s acc taken :
  match s with c :: _ => isdigit c = false | [] => True end ->
  digits acc taken s = (acc, taken, s).
Proof. destruct s as [|c s]; simpl; [reflexivity|]. now intros ->. Qed.

Lemma digits_numeral d : forall acc taken rest,
  match rest with c :: _ => isdigit c = false | [] => True end ->
  digits (Z.of_nat acc) taken (chars (DecimalString.NilEmpty.string_of_uint d) ++ rest)
  = (Z.of_nat (Nat.of_uint_acc d acc),
     (taken + String.length (DecimalString.NilEmpty.string_of_uint d))%nat, rest).
Proof.
  induction d; intros acc taken rest Hr;
    [ simpl; rewrite Nat.add_0_r; now apply digits_stop | .. ];
    cbn [DecimalString.NilEmpty.string_of_uint chars list_ascii_of_string app digits
         String.length Nat.of_uint_acc];
    match goal with
    | |- context [isdigit ?c] => change (isdigit c) with true; cbv iota
    end;
    match goal with
    | |- digits ?a _ _ = (Z.of_nat (Nat.of_uint_acc _ ?b), _, _) =>
        replace a with (Z.of_nat b)
          by (rewrite Nat.tail_mul_spec; unfold digit_value; simpl; lia)
    end;
    unfold chars in *; rewrite IHd by assumption; f_equal; f_equal; lia.
Qed.

Lemma numeral_digits d :
  forallb isdigit (chars (DecimalString.NilEmpty.string_of_uint d)) = true.
Proof. induction d; simpl; [reflexivity|..]; exact IHd. Qed.

Lemma to_uint_nonnil n : Nat.to_uint n <> Decimal.Nil.
Proof.
  rewrite <- (DecimalNat.Unsigned.of_to n) at 1.
  rewrite DecimalNat.Unsigned.to_of. apply DecimalFacts.unorm_nonnil.
Qed.

Lemma decimal_first n :
  exists c cs, chars (decimal n) = c :: cs /\ isdigit c = true.
Proof.
  unfold decimal. pose proof (to_uint_nonnil n) as Hn.
  pose proof (numeral_digits (Nat.to_uint n)) as Hd.
  destruct (Nat.to_uint n); [congruence|..]; simpl in *; eauto.
Qed.

Lemma isdigit_plain c :
  isdigit c = true ->
  isspace c = false /\ Ascii.eqb c "-" = false /\ Ascii.eqb c "+" = false /\
  separator c = false.
Proof.
  intros H. unfold separator. repeat split.
  - unfold isdigit, isspace in *. apply andb_prop in H as [H1 H2].
    apply Nat.leb_le in H1, H2.
    apply orb_false_intro; [apply Nat.eqb_neq; lia|].
    apply andb_false_iff. right. apply Nat.leb_gt. lia.
  - destruct (Ascii.eqb_spec c "-"); [subst; discriminate|reflexivity].
  - destruct (Ascii.eqb_spec c "+"); [subst; discriminate|reflexivity].
  - destruct (Ascii.eqb_spec c ","); [subst; discriminate|].
    destruct (Ascii.eqb_spec c " "); [subst; discriminate|reflexivity].
Qed.

Lemma extract_unsigned_decimal n rest :
  (Z.of_nat n < 2 ^ 32)%Z ->
  match rest with c :: _ => isdigit c = false | [] => True end ->
  extract_unsigned 32 (chars (decimal n) ++ rest) = Some (Z.of_nat n, rest).
Proof.
  intros Hn Hr. unfold extract_unsigned.
  destruct (decimal_first n) as (c & cs & Hc & Hd).
  destruct (isdigit_plain c Hd) as (Hsp & Hm & Hp & _).
  assert (Hs : sign (skipws (chars (decimal n) ++ rest))
               = (false, chars (decimal n) ++ rest)).
  { rewrite Hc. simpl. rewrite Hsp. simpl. now rewrite Hm, Hp. }
  rewrite Hs. unfold decimal at 1.
  change 0%Z with (Z.of_nat 0).
  rewrite digits_numeral by assumption.
  change (Nat.of_uint_acc (Nat.to_uint n) 0) with (Nat.of_uint (Nat.to_uint n)).
  rewrite DecimalNat.Unsigned.of_to.
  assert (Hl : String.length (DecimalString.NilEmpty.string_of_uint (Nat.to_uint n))
               = S (length cs)).
  { rewrite <- length_chars. fold (decimal n). now rewrite Hc. }
  rewrite Hl. cbn -[Z.pow Z.ltb].
  destruct (Z.ltb_spec (Z.of_nat n) (2 ^ 32)); [reflexivity|lia].
Qed.

Lemma string_length_app s1 s2 :
  String.length (s1 ++ s2) = (String.length s1 + String.length s2)%nat.
Proof. induction s1 as [|c s1 IH]; simpl; [reflexivity|]. now rewrite IH. Qed.

Lemma render_more_head rest :
  Forall (fun sn => separator (fst sn) = true) rest ->
  match chars (render_more rest) with c :: _ => isdigit c = false | [] => True end.
Proof.
  destruct rest as [|[c n] rest]; simpl; [trivial|]. intros H. inversion H; subst.
  simpl in *. destruct (isdigit c) eqn:Hc; [|reflexivity].
  apply isdigit_plain in Hc as (_ & _ & _ & Hc). congruence.
Qed.

Lemma parseUnknownDependencies_loop_render rest : forall first store fuel,
  Forall (fun sn => separator (fst sn) = true) rest ->
  Forall (fun n => Z.of_nat n < 2 ^ 32)%Z (first :: map snd rest) ->
  (String.length (render_dependencies first rest) < fuel)%nat ->
  parseUnknownDependencies_loop fuel (chars (render_dependencies first rest)) store
  = store ++ map Z.of_nat (first :: map snd rest).
Proof.
  induction rest as [|[c n] rest IH]; intros first store fuel Hs Hb Hf;
    (destruct fuel as [|fuel]; [lia|]);
    inversion Hb as [|? ? Hfirst Hb']; subst;
    unfold render_dependencies in *; rewrite chars_app;
    cbn [parseUnknownDependencies_loop];
    rewrite extract_unsigned_decimal by (assumption || now apply render_more_head).
  - reflexivity.
  - inversion Hs as [|? ? Hc Hs']; subst. simpl in Hc.
    cbn [render_more chars list_ascii_of_string]. unfold separator in Hc. rewrite Hc.
    fold (chars (decimal n ++ render_more rest)%string).
    rewrite IH; [now rewrite <- app_assoc|assumption|assumption|].
    rewrite string_length_app in Hf. simpl in Hf. lia.
Qed.

(** A list of numbers below [2^32], written as decimal numerals with one
    comma or one blank between neighbours, is read back as it was written. *)
Theorem dependencies_round_trip first rest store :
  Forall (fun sn => separator (fst sn) = true) rest ->
  Forall (fun n => Z.of_nat n < 2 ^ 32)%Z (first :: map snd rest) ->
  parseUnknownDependencies (render_dependencies first rest) store
  = store ++ map Z.of_nat (first :: map snd rest).
Proof.
  intros Hs Hb. apply parseUnknownDependencies_loop_render; auto.
Qed.

Lemma dependencies_round_trip_witness :
  render_dependencies 10 [(","%char, 2%nat); (" "%char, 300%nat)] = "10,2 300" /\
  parseUnknownDependencies "10,2 300" [] = [10; 2; 300]%Z.
Proof.
  split; [reflexivity|].
  apply (dependencies_round_trip 10 [(","%char, 2%nat); (" "%char, 300%nat)] []).
  - repeat constructor.
  - repeat constructor.
Defined.

(** ** Required attributes *)

Lemma translate_range bits v x :
  (0 <= bits)%Z -> translate (extract_unsigned bits) v = Some x -> (0 <= x < 2 ^ bits)%Z.
Proof.
  intros Hb. unfold translate.
  destruct (extract_unsigned bits (chars v)) as [[y rest]|] eqn:He; [|discriminate].
  apply extract_unsigned_range in He; [|assumption].
  destruct (skipws rest); [|discriminate]. intros H; inversion H; subst; assumption.
Qed.

Lemma tr_unsigned_decimal n :
  (Z.of_nat n < 2 ^ 32)%Z -> tr_unsigned (decimal n) = Some (Z.of_nat n).
Proof.
  intros Hn. unfold tr_unsigned, translate.
  rewrite <- (app_nil_r (chars (decimal n))).
  rewrite extract_unsigned_decimal by (assumption || exact I). reflexivity.
Qed.

(** [parseUnknown] needs a readable [index]: without the attribute it throws
    the bad-path error, with an unreadable one the bad-data error that
    carries the value.  An index it returns fits 32 bits, and an index
    written as a decimal numeral is returned as written; zero is accepted. *)
Theorem unknown_index_required attributes content :
  names_ok content ->
  (attribute "index" attributes = None ->
   parseUnknown (element_tree attributes content) = Err (ptree_bad_path "<xmlattr>.index")) /\
  (forall v,
      attribute "index" attributes = Some v -> tr_unsigned v = None ->
      parseUnknown (element_tree attributes content) = Err (ptree_bad_data v)) /\
  (forall u,
      parseUnknown (element_tree attributes content) = OK u ->
      (0 <= index u < 2 ^ 32)%Z) /\
  (forall n,
      attribute "index" attributes = Some (decimal n) -> (Z.of_nat n < 2 ^ 32)%Z ->
      exists u,
        parseUnknown (element_tree attributes content) = OK u /\ index u = Z.of_nat n).
Proof.
  intros Hok.
  assert (Hget : get tr_unsigned "<xmlattr>.index" (element_tree attributes content)
                 = match attribute "index" attributes with
                   | Some v => match tr_unsigned v with
                               | Some x => OK x
                               | None => Err (ptree_bad_data v)
                               end
                   | None => Err (ptree_bad_path "<xmlattr>.index")
                   end).
  { apply (get_attribute _ _ "index"); [reflexivity|now right]. }
  repeat split.
  - intros Hn. unfold parseUnknown. rewrite Hget, Hn. reflexivity.
  - intros v Hv Htr. unfold parseUnknown. rewrite Hget, Hv, Htr. reflexivity.
  - unfold parseUnknown in H. rewrite Hget in H.
    destruct (attribute "index" attributes) as [v|]; [|discriminate].
    destruct (tr_unsigned v) as [x|] eqn:Hx; [|discriminate].
    inversion H; subst; simpl. apply (translate_range 32 v x); [lia|exact Hx].
  - unfold parseUnknown in H. rewrite Hget in H.
    destruct (attribute "index" attributes) as [v|]; [|discriminate].
    destruct (tr_unsigned v) as [x|] eqn:Hx; [|discriminate].
    inversion H; subst; simpl. apply (translate_range 32 v x); [lia|exact Hx].
  - intros n Hn Hb. eexists. split.
    + apply (parseUnknown_element _ _ (decimal n) (Z.of_nat n)); [assumption|].
      now apply tr_unsigned_decimal.
    + reflexivity.
Qed.

Lemma unknown_index_required_witness :
  parseUnknown (element_tree [("dependencies", "1")] []) = Err (ptree_bad_path "<xmlattr>.index") /\
  parseUnknown (element_tree [("index", "one")] []) = Err (ptree_bad_data "one").
Proof.
  split.
  - apply (unknown_index_required [("dependencies", "1")] []); [intros ? ? ? []|reflexivity].
  - apply (unknown_index_required [("index", "one")] []); [intros ? ? ? []|reflexivity..].
Defined.

Section RequiredAttributes.

Context {ext : Externals}.

(** [parseScalarVariable] reads [name] and then [valueReference] before it
    looks at any child: without a name it throws the bad-path error of the
    name, with a name and without a value reference that of the value
    reference, and with an unreadable value reference the bad-data error,
    whatever the children are. *)
Theorem scalar_variable_required_attributes attributes content :
  names_ok content ->
  (attribute "name" attributes = None ->
   parseScalarVariable (element_tree attributes content)
   = Err (ptree_bad_path "<xmlattr>.name")) /\
  (forall nm,
      attribute "name" attributes = Some nm ->
      attribute "valueReference" attributes = None ->
      parseScalarVariable (element_tree attributes content)
      = Err (ptree_bad_path "<xmlattr>.valueReference")) /\
  (forall nm v,
      attribute "name" attributes = Some nm ->
      attribute "valueReference" attributes = Some v -> tr_unsigned v = None ->
      parseScalarVariable (element_tree attributes content) = Err (ptree_bad_data v)).
Proof.
  intros Hok. unfold parseScalarVariable, parseScalarVariableBase.
  rewrite (get_attribute _ _ "name") by (reflexivity || now right).
  rewrite (get_attribute _ _ "valueReference") by (reflexivity || now right).
  unfold tr_string. repeat split.
  - intros ->. reflexivity.
  - intros nm -> ->. reflexivity.
  - intros nm v -> -> ->. reflexivity.
Qed.

(** The root needs [guid], [fmiVersion] and [modelName], asked for in this
    order: the first one missing is the one the bad-path error names, before
    any child of the root is looked at. *)
Theorem root_required_attributes prolog attributes content epilog :
  forallb not_element prolog = true ->
  names_ok content ->
  (attribute "guid" attributes = None ->
   parseModelDescription (fmi_document prolog attributes content epilog)
   = Err (ptree_bad_path "<xmlattr>.guid")) /\
  (forall g,
      attribute "guid" attributes = Some g ->
      attribute "fmiVersion" attributes = None ->
      parseModelDescription (fmi_document prolog attributes content epilog)
      = Err (ptree_bad_path "<xmlattr>.fmiVersion")) /\
  (forall g v,
      attribute "guid" attributes = Some g ->
      attribute "fmiVersion" attributes = Some v ->
      attribute "modelName" attributes = None ->
      parseModelDescription (fmi_document prolog attributes content epilog)
      = Err (ptree_bad_path "<xmlattr>.modelName")).
Proof.
  intros Hp Hok. rewrite parseModelDescription_document by assumption.
  unfold parseRoot, parseModelDescriptionBase.
  rewrite (get_attribute _ _ "guid") by (reflexivity || now right).
  rewrite (get_attribute _ _ "fmiVersion") by (reflexivity || now right).
  rewrite (get_attribute _ _ "modelName") by (reflexivity || now right).
  unfold tr_string. repeat split.
  - intros ->. reflexivity.
  - intros g -> ->. reflexivity.
  - intros g v -> -> ->. reflexivity.
Qed.

End RequiredAttributes.

Lemma scalar_variable_required_attributes_witness :
  parseScalarVariable (ext := example_externals)
    (element_tree [("valueReference", "1")] [Element "Real" [] []])
  = Err (ptree_bad_path "<xmlattr>.name") /\
  parseScalarVariable (ext := example_externals)
    (element_tree [("name", "x"); ("valueReference", "-")] [Element "Real" [] []])
  = Err (ptree_bad_data "-").
Proof.
  split.
  - apply (scalar_variable_required_attributes (ext := example_externals)
             [("valueReference", "1")] [Element "Real" [] []]); [|reflexivity].
    intros nm a sub [H|[]]. now inversion H.
  - apply (scalar_variable_required_attributes (ext := example_externals)
             [("name", "x"); ("valueReference", "-")] [Element "Real" [] []] )
      with (nm := "x"); [|reflexivity..].
    intros nm a sub [H|[]]. now inversion H.
Defined.

Lemma root_required_attributes_witness :
  parseModelDescription (ext := example_externals)
    (fmi_document [] [("fmiVersion", "2.0"); ("modelName", "M")]
                  [Element "CoSimulation" [] []] [])
  = Err (ptree_bad_path "<xmlattr>.guid").
Proof.
  apply (root_required_attributes (ext := example_externals)
           [] [("fmiVersion", "2.0"); ("modelName", "M")]
           [Element "CoSimulation" [] []] []); [reflexivity| |reflexivity].
  intros nm a sub [H|[]]. now inversion H.
Defined.

(** ** The root element *)

Lemma find_no_element key doc :
  key <> xmlcomment ->
  (forall a c, ~ In (Element key a c) doc) ->
  List.find (fun kv : string * ptree => String.eqb (fst kv) key) (flat_map node_children doc)
  = None.
Proof.
  intros Hk Hn. induction doc as [|n doc IH]; [reflexivity|].
  simpl. rewrite find_app.
  assert (Hd : forall a c, ~ In (Element key a c) doc).
  { intros a c Hin. apply (Hn a c). now right. }
  rewrite (IH Hd).
  destruct n as [nm a sub| |]; simpl; [|reflexivity|].
  - destruct (String.eqb_spec nm key) as [->|_]; [|reflexivity].
    exfalso. apply (Hn a sub). now left.
  - destruct (String.eqb_spec xmlcomment key); [congruence|reflexivity].
Qed.

Section RootElement.

Context {ext : Externals}.

(** A document with no [<fmiModelDescription>] element at top level is
    refused with the bad-path error of the root, whatever else it holds. *)
Theorem root_element_required doc :
  (forall a c, ~ In (Element "fmiModelDescription" a c) doc) ->
  parseModelDescription doc = Err (ptree_bad_path "fmiModelDescription").
Proof.
  intros Hn. unfold parseModelDescription, get_child, get_child_optional.
  change (fragments "fmiModelDescription") with ["fmiModelDescription"].
  unfold walk_path, find, read_xml. rewrite children_read_nodes. simpl children.
  rewrite app_nil_l, find_no_element by (discriminate || assumption). reflexivity.
Qed.

End RootElement.

Lemma root_element_required_witness :
  parseModelDescription (ext := example_externals)
    [Comment "c"; Element "modelDescription" root_attributes []]
  = Err (ptree_bad_path "fmiModelDescription").
Proof.
  apply (root_element_required (ext := example_externals)).
  intros a c [H|[H|[]]]; discriminate.
Defined.

(** ** Flavour elements *)

(** Both flavour parsers need [modelIdentifier]: without it they throw the
    bad-path error of that attribute. *)
Theorem flavour_requires_model_identifier attributes content :
  names_ok content ->
  attribute "modelIdentifier" attributes = None ->
  parseCoSimulationAttributes (element_tree attributes content)
  = Err (ptree_bad_path "<xmlattr>.modelIdentifier") /\
  parseModelExchangeAttributes (element_tree attributes content)
  = Err (ptree_bad_path "<xmlattr>.modelIdentifier").
Proof.
  intros Hok Hn.
  unfold parseCoSimulationAttributes, parseModelExchangeAttributes, parseFmuAttributes.
  rewrite (get_attribute _ _ "modelIdentifier") by (reflexivity || now right).
  rewrite Hn. split; reflexivity.
Qed.

Lemma flavour_requires_model_identifier_witness :
  parseCoSimulationAttributes (element_tree [("canInterpolateInputs", "true")] [])
  = Err (ptree_bad_path "<xmlattr>.modelIdentifier").
Proof.
  apply (flavour_requires_model_identifier [("canInterpolateInputs", "true")] []);
    [intros ? ? ? []|reflexivity].
Defined.

(** ** What the root loop keeps, fills and passes over *)

Lemma get_or_attribute {A} (tr : translator A) path k dflt attributes content :
  fragments path = [xmlattr; k] ->
  attributes <> [] \/ names_ok content ->
  get_or tr path dflt (element_tree attributes content) = attribute_or tr k dflt attributes.
Proof.
  intros Hp Hne. unfold get_or, attribute_or.
  rewrite (get_optional_attribute _ _ k) by assumption.
  destruct (attribute k attributes) as [v|]; reflexivity.
Qed.

Section RootLoopFacts.

Context {ext : Externals}.

Lemma root_child_identity v st st' :
  root_child v st = OK st' -> identity (base st') = identity (base st).
Proof.
  rewrite root_child_slot.
  destruct (slot_of (fst v)) as [[]|];
    repeat match goal with
           | |- context [bind ?m _] => destruct m; cbn [bind]
           end;
    intros H; inversion H; reflexivity.
Qed.

Lemma root_loop_identity vs : forall st st',
  for_each root_child vs st = OK st' -> identity (base st') = identity (base st).
Proof.
  induction vs as [|v vs IH]; intros st st' H.
  - inversion H; reflexivity.
  - simpl in H. apply bind_OK in H as (st1 & H1 & H).
    rewrite (IH _ _ H). exact (root_child_identity v st st1 H1).
Qed.

(** The description of a document carries the [guid], [fmiVersion] and
    [modelName] of the root as written, and for each optional attribute of
    the root its value, or the default when the attribute is missing or not
    readable: the empty string, 0 event indicators, the naming convention
    [flat].  No child of the root changes these fields. *)
Theorem document_identity prolog attributes content epilog md :
  forallb not_element prolog = true ->
  names_ok content ->
  parseModelDescription (fmi_document prolog attributes content epilog) = OK md ->
  exists g v m,
    attribute "guid" attributes = Some g /\
    attribute "fmiVersion" attributes = Some v /\
    attribute "modelName" attributes = Some m /\
    identity (base md)
    = (g, v, m,
       attribute_or tr_string "description" "" attributes,
       attribute_or tr_string "author" "" attributes,
       attribute_or tr_string "version" "" attributes,
       attribute_or tr_string "license" "" attributes,
       attribute_or tr_string "copyright" "" attributes,
       attribute_or tr_string "generationTool" "" attributes,
       attribute_or tr_string "generationDateAndTime" "" attributes,
       attribute_or tr_size_t "numberOfEventIndicators" 0%Z attributes,
       attribute_or tr_string "variableNamingConvention" "flat" attributes).
Proof.
  intros Hp Hok H. rewrite parseModelDescription_document in H by assumption.
  unfold parseRoot in H. apply bind_OK in H as (b & Hb & H).
  apply root_loop_identity in H. cbn [base] in H. rewrite H. clear H md.
  unfold parseModelDescriptionBase in Hb.
  rewrite (get_attribute _ _ "guid") in Hb by (reflexivity || now right).
  rewrite (get_attribute _ _ "fmiVersion") in Hb by (reflexivity || now right).
  rewrite (get_attribute _ _ "modelName") in Hb by (reflexivity || now right).
  rewrite (get_or_attribute _ _ "description") in Hb by (reflexivity || now right).
  rewrite (get_or_attribute _ _ "author") in Hb by (reflexivity || now right).
  rewrite (get_or_attribute _ _ "version") in Hb by (reflexivity || now right).
  rewrite (get_or_attribute _ _ "license") in Hb by (reflexivity || now right).
  rewrite (get_or_attribute _ _ "copyright") in Hb by (reflexivity || now right).
  rewrite (get_or_attribute _ _ "generationTool") in Hb by (reflexivity || now right).
  rewrite (get_or_attribute _ _ "generationDateAndTime") in Hb by (reflexivity || now right).
  rewrite (get_or_attribute _ _ "numberOfEventIndicators") in Hb by (reflexivity || now right).
  rewrite (get_or_attribute _ _ "variableNamingConvention") in Hb by (reflexivity || now right).
  unfold tr_string at 1 2 3 in Hb.
  destruct (attribute "guid" attributes) as [g|]; [|discriminate].
  destruct (attribute "fmiVersion" attributes) as [v|]; [|discriminate].
  destruct (attribute "modelName" attributes) as [m|]; [|discriminate].
  cbn [bind] in Hb. inversion Hb. exists g, v, m. repeat split.
Qed.

End RootLoopFacts.

Lemma document_identity_witness :
  exists md,
    parseModelDescription (ext := example_externals)
      (fmi_document [] (root_attributes ++ [("numberOfEventIndicators", "many")])
                    both_flavours_content []) = OK md /\
    variableNamingConvention (base md) = "flat" /\
    numberOfEventIndicators (base md) = 0%Z /\
    guid (base md) = "{g}".
Proof.
  eexists. split; [vm_compute; reflexivity|].
  match goal with
  | |- variableNamingConvention (base ?md) = _ /\ _ =>
      destruct (document_identity (ext := example_externals)
                  [] (root_attributes ++ [("numberOfEventIndicators", "many")])
                  both_flavours_content [] md) as (g & v & m & Hg & _ & _ & Hi)
  end.
  - reflexivity.
  - intros nm a sub Hin. simpl in Hin.
    repeat (destruct Hin as [Hin|Hin]; [inversion Hin; reflexivity|]). contradiction.
  - vm_compute. reflexivity.
  - repeat split.
Defined.

Section RootSlots.

Context {ext : Externals}.

(** An element at the end of the root decides its slot: a [<CoSimulation>],
    [<ModelExchange>] or [<DefaultExperiment>] there replaces what an earlier
    element of the same tag gave, and so do [<ModelVariables>] and
    [<ModelStructure>]; the rest of the description is that of the document
    without the element, which must parse as well. *)
Theorem last_element_decides_slot prolog attributes content epilog a sub :
  forallb not_element prolog = true ->
  parseModelDescription
    (fmi_document prolog attributes (content ++ [Element "CoSimulation" a sub]) epilog)
  = (let* md := parseModelDescription (fmi_document prolog attributes content epilog) in
     let* cs := parseCoSimulationAttributes (element_tree a sub) in
     OK {| base := base md; coSimulation := Some cs; modelExchange := modelExchange md |}) /\
  parseModelDescription
    (fmi_document prolog attributes (content ++ [Element "ModelExchange" a sub]) epilog)
  = (let* md := parseModelDescription (fmi_document prolog attributes content epilog) in
     let* me := parseModelExchangeAttributes (element_tree a sub) in
     OK {| base := base md; coSimulation := coSimulation md; modelExchange := Some me |}) /\
  parseModelDescription
    (fmi_document prolog attributes (content ++ [Element "DefaultExperiment" a sub]) epilog)
  = (let* md := parseModelDescription (fmi_document prolog attributes content epilog) in
     OK {| base :=
             set_defaultExperiment (base md)
               (Some (parseDefaultExperiment (element_tree a sub)));
           coSimulation := coSimulation md; modelExchange := modelExchange md |}) /\
  parseModelDescription
    (fmi_document prolog attributes (content ++ [Element "ModelVariables" a sub]) epilog)
  = (let* md := parseModelDescription (fmi_document prolog attributes content epilog) in
     let* mv := parseModelVariables (element_tree a sub) in
     OK {| base := set_modelVariables (base md) (Some mv);
           coSimulation := coSimulation md; modelExchange := modelExchange md |}) /\
  parseModelDescription
    (fmi_document prolog attributes (content ++ [Element "ModelStructure" a sub]) epilog)
  = (let* md := parseModelDescription (fmi_document prolog attributes content epilog) in
     let* ms := parseModelStructure (element_tree a sub) in
     OK {| base := set_modelStructure (base md) (Some ms);
           coSimulation := coSimulation md; modelExchange := modelExchange md |}).
Proof.
  intros Hp. rewrite !parseModelDescription_document by assumption.
  repeat split; rewrite parseRoot_snoc by discriminate;
    (destruct (parseRoot (element_tree attributes content)) as [md|e]; [|reflexivity]);
    cbn [bind]; rewrite root_child_slot; reflexivity.
Qed.

Lemma root_child_filled v st st' s :
  root_child v st = OK st' ->
  filled s st' = true <-> filled s st = true \/ slot_of (fst v) = Some s.
Proof.
  rewrite root_child_slot.
  destruct (slot_of (fst v)) as [[]|];
    repeat match goal with
           | |- context [bind ?m _] => destruct m; cbn [bind]
           end;
    intros H; inversion H; subst; destruct s; simpl;
    intuition (discriminate || auto).
Qed.

Lemma root_loop_filled vs s : forall st st',
  for_each root_child vs st = OK st' ->
  filled s st' = true <-> filled s st = true \/ In s (slots vs).
Proof.
  induction vs as [|v vs IH]; intros st st' H.
  - inversion H; subst. simpl. tauto.
  - simpl in H. apply bind_OK in H as (st1 & H1 & H).
    rewrite (IH _ _ H), (root_child_filled v st st1 s H1).
    change (v :: vs) with ([v] ++ vs). rewrite slots_app, in_app_iff.
    unfold slots at 2. simpl. destruct (slot_of (fst v)) as [s'|]; simpl.
    + intuition congruence.
    + intuition discriminate.
Qed.

Lemma In_slots_element tag s content :
  slot_of tag = Some s ->
  In s (slots (flat_map node_children content)) <-> In tag (element_names content).
Proof.
  intros Hs. split.
  - intros Hin. apply In_slots_content in Hin as (nm & Hin & Hnm).
    assert (nm = tag) by (eapply slot_of_injective; eassumption). now subst.
  - induction content as [|n content IH]; simpl; [contradiction|].
    rewrite slots_app, !in_app_iff. intros [H|H]; [left|right; auto].
    destruct n as [nm a sub| |]; simpl in H; try contradiction.
    destruct H as [->|[]]. unfold slots. simpl. rewrite Hs. now left.
Qed.

(** A slot of the description is filled exactly when the root has an element
    with its tag: [coSimulation], [modelExchange], [defaultExperiment],
    [modelVariables] and [modelStructure] are present if and only if the
    document has a child of that name.  A document with neither flavour is
    accepted. *)
Theorem slot_filled_iff_element prolog attributes content epilog md tag s :
  forallb not_element prolog = true ->
  parseModelDescription (fmi_document prolog attributes content epilog) = OK md ->
  slot_of tag = Some s ->
  filled s md = true <-> In tag (element_names content).
Proof.
  intros Hp H Hs. rewrite parseModelDescription_document in H by assumption.
  unfold parseRoot in H. apply bind_OK in H as (b & Hb & H).
  rewrite (root_loop_filled _ s _ _ H), slots_element_tree.
  rewrite (In_slots_element tag s content Hs).
  assert (Hinit : filled s {| base := b; coSimulation := None; modelExchange := None |}
                  = false).
  { unfold parseModelDescriptionBase in Hb.
    repeat (apply bind_OK in Hb as (? & _ & Hb)). inversion Hb. destruct s; reflexivity. }
  rewrite Hinit. intuition discriminate.
Qed.

End RootSlots.

Lemma slot_filled_iff_element_witness :
  exists md,
    parseModelDescription (ext := example_externals)
      (fmi_document [] root_attributes [Element "ModelExchange" [("modelIdentifier", "m")] []] [])
    = OK md /\
    filled slot_modelExchange md = true /\
    (filled slot_coSimulation md = true <-> False).
Proof.
  eexists. split; [vm_compute; reflexivity|]. split; [reflexivity|].
  etransitivity.
  - apply (slot_filled_iff_element (ext := example_externals)
             [] root_attributes [Element "ModelExchange" [("modelIdentifier", "m")] []] []
             _ "CoSimulation" slot_coSimulation); [reflexivity|vm_compute; reflexivity|reflexivity].
  - simpl. intuition discriminate.
Defined.

Lemma last_element_decides_slot_witness :
  exists md,
    parseModelDescription (ext := example_externals)
      (fmi_document [] root_attributes
         ([Element "CoSimulation" [("modelIdentifier", "first")] []]
          ++ [Element "CoSimulation" [("modelIdentifier", "second")] []]) []) = OK md /\
    option_map (fun cs => modelIdentifier (cs_fmu cs)) (coSimulation md) = Some "second".
Proof.
  rewrite (proj1 (last_element_decides_slot (ext := example_externals)
                    [] root_attributes
                    [Element "CoSimulation" [("modelIdentifier", "first")] []] []
                    [("modelIdentifier", "second")] [] eq_refl)).
  eexists. split; [vm_compute; reflexivity|reflexivity].
Defined.

(** ** Nodes the root passes over *)

Lemma find_xmlattr_insert attributes c1 n c2 :
  passed_over n = true ->
  find xmlattr (element_tree attributes (c1 ++ n :: c2))
  = find xmlattr (element_tree attributes (c1 ++ c2)).
Proof.
  intros Hn. unfold find, element_tree. rewrite !children_read_nodes.
  rewrite !flat_map_app. simpl flat_map. rewrite !find_app.
  destruct (List.find _ (children (Node "" (attribute_tree attributes)))); [reflexivity|].
  destruct (List.find _ (flat_map node_children c1)); [reflexivity|].
  destruct n as [nm a sub| |]; simpl in *; [|reflexivity|].
  - destruct (slot_of nm); [discriminate|].
    destruct (String.eqb_spec nm xmlattr); [discriminate|reflexivity].
  - destruct (String.eqb_spec xmlcomment xmlattr); [discriminate|reflexivity].
Qed.

Lemma for_each_skip {S} (body : string * ptree -> S -> result S) l1 mid l2 st :
  (forall s, for_each body mid s = OK s) ->
  for_each body (l1 ++ mid ++ l2) st = for_each body (l1 ++ l2) st.
Proof.
  intros Hmid. rewrite !(for_each_app body l1).
  destruct (for_each body l1 st) as [s|e]; [|reflexivity].
  cbn [bind]. rewrite for_each_app, Hmid. reflexivity.
Qed.

Section PassedOver.

Context {ext : Externals}.

Lemma root_loop_passed_over n st :
  passed_over n = true -> for_each root_child (node_children n) st = OK st.
Proof.
  destruct n as [nm a sub| |]; simpl; intros Hn; [|reflexivity|reflexivity].
  rewrite root_child_slot. simpl. destruct (slot_of nm); [discriminate|reflexivity].
Qed.

(** Character data, comments and elements with a tag the loop does not know
    can stand anywhere among the children of the root: the result, a
    description or an error, is that of the document without them. *)
Theorem unknown_root_children_ignored prolog attributes c1 n c2 epilog :
  forallb not_element prolog = true ->
  passed_over n = true ->
  parseModelDescription (fmi_document prolog attributes (c1 ++ n :: c2) epilog)
  = parseModelDescription (fmi_document prolog attributes (c1 ++ c2) epilog).
Proof.
  intros Hp Hn. rewrite !parseModelDescription_document by assumption.
  unfold parseRoot.
  rewrite (parseModelDescriptionBase_ext _ (element_tree attributes (c1 ++ c2)))
    by now apply find_xmlattr_insert.
  destruct (parseModelDescriptionBase (element_tree attributes (c1 ++ c2))) as [b|e];
    [|reflexivity].
  cbn [bind]. unfold element_tree. rewrite !children_read_nodes, !flat_map_app.
  simpl flat_map. rewrite !app_assoc.
  rewrite <- (app_assoc _ (node_children n)).
  apply for_each_skip. intros s. now apply root_loop_passed_over.
Qed.

End PassedOver.

Lemma unknown_root_children_ignored_witness :
  parseModelDescription (ext := example_externals)
    (fmi_document [] root_attributes
       ([Element "CoSimulation" [("modelIdentifier", "m")] []]
        ++ Element "UnitDefinitions" [] [Element "Unit" [] []]
        :: [Element "ModelVariables" [] []]) [])
  = parseModelDescription (ext := example_externals)
      (fmi_document [] root_attributes
         ([Element "CoSimulation" [("modelIdentifier", "m")] []]
          ++ [Element "ModelVariables" [] []]) []).
Proof.
  apply (unknown_root_children_ignored (ext := example_externals)); reflexivity.
Defined.

(** ** When a document parses *)

Section Accepted.

Context {ext : Externals}.

Lemma root_child_accepted v st :
  (exists st', root_child v st = OK st') <-> accepted v.
Proof.
  rewrite root_child_slot. unfold accepted.
  destruct (slot_of (fst v)) as [[]|];
    repeat match goal with
           | |- context [bind ?m _] => destruct m; cbn [bind]
           end;
    split; intros H; eauto; destruct H as [x H]; discriminate.
Qed.

Lemma root_loop_accepted vs : forall st,
  (exists st', for_each root_child vs st = OK st') <-> Forall accepted vs.
Proof.
  induction vs as [|v vs IH]; intros st; simpl.
  - split; [constructor|eauto].
  - split.
    + intros [st' H]. apply bind_OK in H as (st1 & H1 & H).
      constructor; [apply (root_child_accepted v st); eauto|apply (IH st1); eauto].
    + intros H. inversion H as [|? ? Hv Hvs]; subst.
      apply (root_child_accepted v st) in Hv as [st1 H1]. rewrite H1. simpl.
      now apply IH.
Qed.

Lemma Forall_accepted_children attributes content :
  Forall accepted (children (element_tree attributes content)) <->
  forall name a sub, In (Element name a sub) content -> accepted (name, element_tree a sub).
Proof.
  unfold element_tree at 1. rewrite children_read_nodes, Forall_app. split.
  - intros [_ H] name a sub Hin. rewrite Forall_forall in H. apply H.
    apply in_flat_map. exists (Element name a sub). split; [assumption|now left].
  - intros H. split.
    + destruct attributes; repeat constructor.
    + apply Forall_forall. intros v Hv. apply in_flat_map in Hv as (n & Hn & Hv).
      destruct n as [nm a sub| |]; simpl in Hv.
      * destruct Hv as [<-|[]]. now apply H.
      * contradiction.
      * destruct Hv as [<-|[]]. exact I.
Qed.

(** A document parses exactly when the root carries [guid], [fmiVersion]
    and [modelName] and each of its [<CoSimulation>], [<ModelExchange>],
    [<ModelVariables>] and [<ModelStructure>] children parses; one child
    that is refused, the first or a repeated one, refuses the document, and
    nothing else does. *)
Theorem document_accepted_iff prolog attributes content epilog :
  forallb not_element prolog = true ->
  names_ok content ->
  (exists md, parseModelDescription (fmi_document prolog attributes content epilog) = OK md)
  <->
  (exists g v m,
      attribute "guid" attributes = Some g /\
      attribute "fmiVersion" attributes = Some v /\
      attribute "modelName" attributes = Some m) /\
  (forall name a sub,
      In (Element name a sub) content -> accepted (name, element_tree a sub)).
Proof.
  intros Hp Hok. rewrite parseModelDescription_document by assumption.
  rewrite <- Forall_accepted_children. unfold parseRoot.
  assert (Hbase : (exists b, parseModelDescriptionBase (element_tree attributes content) = OK b)
                  <-> exists g v m,
                      attribute "guid" attributes = Some g /\
                      attribute "fmiVersion" attributes = Some v /\
                      attribute "modelName" attributes = Some m).
  { unfold parseModelDescriptionBase.
    rewrite (get_attribute _ _ "guid") by (reflexivity || now right).
    rewrite (get_attribute _ _ "fmiVersion") by (reflexivity || now right).
    rewrite (get_attribute _ _ "modelName") by (reflexivity || now right).
    unfold tr_string.
    destruct (attribute "guid" attributes) as [g|];
      [|split; [intros [b H]; discriminate|intros (g & v & m & H & _); discriminate]].
    destruct (attribute "fmiVersion" attributes) as [v|];
      [|split; [intros [b H]; discriminate|intros (g' & v & m & _ & H & _); discriminate]].
    destruct (attribute "modelName" attributes) as [m|];
      [|split; [intros [b H]; discriminate|intros (g' & v' & m & _ & _ & H); discriminate]].
    cbn [bind]. split; eauto 8. }
  rewrite <- Hbase. split.
  - intros [md H]. apply bind_OK in H as (b & Hb & H). split; [eauto|].
    eapply root_loop_accepted; eauto.
  - intros [[b Hb] H]. rewrite Hb. cbn [bind]. now apply root_loop_accepted.
Qed.

End Accepted.

Lemma document_accepted_iff_witness :
  exists md,
    parseModelDescription (ext := example_externals)
      (fmi_document [] root_attributes both_flavours_content []) = OK md.
Proof.
  apply (document_accepted_iff (ext := example_externals)
           [] root_attributes both_flavours_content []).
  - reflexivity.
  - intros nm a sub Hin. simpl in Hin.
    repeat (destruct Hin as [Hin|Hin]; [inversion Hin; reflexivity|]). contradiction.
  - split; [exists "{g}", "2.0", "M"; repeat split|].
    intros nm a sub Hin. simpl in Hin.
    repeat (destruct Hin as [Hin|Hin];
            [inversion Hin; subst; try (eexists; vm_compute; reflexivity)|]);
      contradiction.
Defined.

(** ** The typed child of a scalar variable *)

Lemma find_xmlattr_element_tree attributes content :
  attributes <> [] \/ names_ok content ->
  find xmlattr (element_tree attributes content)
  = match attributes with
    | [] => None
    | _ :: _ => Some (Node "" (map (fun a : string * string => (fst a, Node (snd a) [])) attributes))
    end.
Proof.
  intros H. destruct attributes as [|x l].
  - destruct H as [H|H]; [congruence|].
    apply find_element_tree_none; auto; try discriminate.
  - unfold find, element_tree. rewrite children_read_nodes. reflexivity.
Qed.

Lemma typed_tag_name_ok tag : typed_tag tag = true -> name_ok tag = true.
Proof.
  unfold typed_tag. intros H.
  repeat (apply orb_prop in H as [H|H]); apply String.eqb_eq in H; subst; reflexivity.
Qed.

Lemma names_ok_insert pre n post :
  names_ok (pre ++ post) ->
  (forall name a sub, n = Element name a sub -> name_ok name = true) ->
  names_ok (pre ++ n :: post).
Proof.
  intros H Hn name a sub Hin. apply in_app_or in Hin as [Hin|[Hin|Hin]].
  - apply (H name a sub). apply in_or_app. now left.
  - now apply (Hn name a sub).
  - apply (H name a sub). apply in_or_app. now right.
Qed.

Section TypedChild.

Context {ext : Externals}.

Lemma parseScalarVariableBase_ext t1 t2 :
  find xmlattr t1 = find xmlattr t2 ->
  parseScalarVariableBase t1 = parseScalarVariableBase t2.
Proof.
  intros H.
  unfold parseScalarVariableBase, get, get_or, get_optional, get_child.
  repeat match goal with
         | |- context [get_child_optional ?p t1] =>
             rewrite (get_child_optional_ext p _ t1 t2 eq_refl H)
         end.
  reflexivity.
Qed.

Lemma parseScalarVariable_scan_skip base l1 l2 :
  Forall (fun v => typed_tag (fst v) = false) l1 ->
  parseScalarVariable_scan base (l1 ++ l2) = parseScalarVariable_scan base l2.
Proof.
  induction 1 as [|v l1 Hv _ IH]; [reflexivity|]. simpl.
  unfold typed_tag in Hv.
  repeat (apply orb_false_elim in Hv as [Hv ?]).
  repeat match goal with H : String.eqb _ _ = false |- _ => rewrite H; clear H end.
  exact IH.
Qed.

Lemma parseScalarVariable_scan_first base v l :
  typed_tag (fst v) = true ->
  parseScalarVariable_scan base (v :: l) = parseScalarVariable_scan base [v].
Proof.
  unfold typed_tag. simpl.
  destruct (String.eqb (fst v) INTEGER_TYPE); [reflexivity|].
  destruct (String.eqb (fst v) REAL_TYPE); [reflexivity|].
  destruct (String.eqb (fst v) STRING_TYPE); [reflexivity|].
  destruct (String.eqb (fst v) BOOLEAN_TYPE); [reflexivity|].
  destruct (String.eqb (fst v) ENUMERATION_TYPE); [reflexivity|discriminate].
Qed.

(** The first child tagged Integer, Real, String, Boolean or Enumeration
    decides a scalar variable: what stands before it (untyped) and after it
    (typed or not) does not matter, and the variant of the variable is the
    one the tag names, built from that child. *)
Theorem first_typed_child_decides attributes pre tag a sub post :
  names_ok (pre ++ post) ->
  (forall t x y, In (Element t x y) pre -> typed_tag t = false) ->
  typed_tag tag = true ->
  parseScalarVariable (element_tree attributes (pre ++ Element tag a sub :: post))
  = parseScalarVariable (element_tree attributes [Element tag a sub]) /\
  forall v,
    parseScalarVariable (element_tree attributes [Element tag a sub]) = OK v ->
    match sv_attribute v with
    | Integer_ x => tag = INTEGER_TYPE /\ x = parseIntegerAttribute (element_tree a sub)
    | Real_ x => tag = REAL_TYPE /\ x = parseRealAttribute (element_tree a sub)
    | String_ x => tag = STRING_TYPE /\ x = parseStringAttribute (element_tree a sub)
    | Boolean_ x => tag = BOOLEAN_TYPE /\ x = parseBooleanAttribute (element_tree a sub)
    | Enumeration_ x =>
        tag = ENUMERATION_TYPE /\ x = parseEnumerationAttribute (element_tree a sub)
    end.
Proof.
  intros Hok Hpre Htag. split.
  - unfold parseScalarVariable.
    rewrite (parseScalarVariableBase_ext _ (element_tree attributes [Element tag a sub])).
    + destruct (parseScalarVariableBase _) as [b|e]; [|reflexivity]. cbn [bind].
      unfold element_tree. rewrite !children_read_nodes, flat_map_app.
      simpl flat_map.
      assert (Ha : Forall (fun v => typed_tag (fst v) = false)
                          (children (Node "" (attribute_tree attributes)))).
      { destruct attributes; repeat constructor. }
      rewrite !(parseScalarVariable_scan_skip b _ _ Ha).
      rewrite parseScalarVariable_scan_skip.
      * now apply parseScalarVariable_scan_first.
      * pose proof (children_untyped [] pre Hpre) as H.
        unfold element_tree in H. rewrite children_read_nodes in H. exact H.
    + rewrite !find_xmlattr_element_tree; [reflexivity| |]; right.
      * intros nm x y [H|[]]. inversion H; subst. now apply typed_tag_name_ok.
      * apply names_ok_insert; [assumption|].
        intros nm x y H. inversion H; subst. now apply typed_tag_name_ok.
  - intros v Hv. unfold parseScalarVariable in Hv. apply bind_OK in Hv as (b & _ & Hv).
    unfold element_tree at 1 in Hv. rewrite children_read_nodes in Hv.
    rewrite parseScalarVariable_scan_skip in Hv by (destruct attributes; repeat constructor).
    simpl in Hv.
    destruct (String.eqb_spec tag INTEGER_TYPE);
      [inversion Hv; subst; simpl; auto|].
    destruct (String.eqb_spec tag REAL_TYPE);
      [inversion Hv; subst; simpl; auto|].
    destruct (String.eqb_spec tag STRING_TYPE);
      [inversion Hv; subst; simpl; auto|].
    destruct (String.eqb_spec tag BOOLEAN_TYPE);
      [inversion Hv; subst; simpl; auto|].
    destruct (String.eqb_spec tag ENUMERATION_TYPE);
      [inversion Hv; subst; simpl; auto|discriminate].
Qed.

End TypedChild.

Lemma first_typed_child_decides_witness :
  parseScalarVariable (ext := example_externals)
    (element_tree [("name", "x"); ("valueReference", "1")]
       ([Comment "typed twice"; Element "Annotations" [] []]
        ++ Element "Boolean" [("start", "true")] []
        :: [Element "Real" [("start", "0.5")] []]))
  = parseScalarVariable (ext := example_externals)
      (element_tree [("name", "x"); ("valueReference", "1")]
         [Element "Boolean" [("start", "true")] []]).
Proof.
  apply (first_typed_child_decides (ext := example_externals)
           [("name", "x"); ("valueReference", "1")]
           [Comment "typed twice"; Element "Annotations" [] []]
           "Boolean" [("start", "true")] [] [Element "Real" [("start", "0.5")] []]).
  - intros nm a sub Hin. simpl in Hin.
    repeat (destruct Hin as [Hin|Hin]; [inversion Hin; reflexivity|]). contradiction.
  - intros t x y Hin. simpl in Hin.
    repeat (destruct Hin as [Hin|Hin]; [inversion Hin; reflexivity|]). contradiction.
  - reflexivity.
Defined.

(** ** Attributes of the flavour elements and of the typed children *)

Lemma parseFmuAttributes_modelIdentifier attributes content fmu :
  names_ok content ->
  parseFmuAttributes (element_tree attributes content) = OK fmu ->
  attribute "modelIdentifier" attributes = Some (modelIdentifier fmu).
Proof.
  intros Hok H. unfold parseFmuAttributes in H.
  rewrite (get_attribute _ _ "modelIdentifier") in H by (reflexivity || now right).
  unfold tr_string in H.
  destruct (attribute "modelIdentifier" attributes) as [mi|]; [|discriminate].
  cbn [bind] in H. apply for_each_sourceFiles_flags in H as (H & _).
  cbn [modelIdentifier] in H. now rewrite H.
Qed.

(** The attributes a flavour parser reads itself are honoured:
    [modelIdentifier] is returned as written, and
    [maxOutputDerivativeOrder], [canInterpolateInputs],
    [canRunAsynchronuously], [canHandleVariableCommunicationStepSize] and
    [completedIntegratorStepNotNeeded] carry the value of the attribute, or
    the default (0, [false]) when it is missing or not readable. *)
Theorem flavour_attributes_honoured attributes content :
  names_ok content ->
  (forall cs,
      parseCoSimulationAttributes (element_tree attributes content) = OK cs ->
      attribute "modelIdentifier" attributes = Some (modelIdentifier (cs_fmu cs)) /\
      maxOutputDerivativeOrder cs
      = attribute_or tr_unsigned "maxOutputDerivativeOrder" 0%Z attributes /\
      canInterpolateInputs cs = attribute_or tr_bool "canInterpolateInputs" false attributes /\
      canRunAsynchronuously cs
      = attribute_or tr_bool "canRunAsynchronuously" false attributes /\
      canHandleVariableCommunicationStepSize cs
      = attribute_or tr_bool "canHandleVariableCommunicationStepSize" false attributes) /\
  (forall me,
      parseModelExchangeAttributes (element_tree attributes content) = OK me ->
      attribute "modelIdentifier" attributes = Some (modelIdentifier (me_fmu me)) /\
      completedIntegratorStepNotNeeded me
      = attribute_or tr_bool "completedIntegratorStepNotNeeded" false attributes).
Proof.
  intros Hok. split.
  - intros cs H. unfold parseCoSimulationAttributes in H.
    rewrite (get_or_attribute _ _ "maxOutputDerivativeOrder") in H by (reflexivity || now right).
    rewrite (get_or_attribute _ _ "canInterpolateInputs") in H by (reflexivity || now right).
    rewrite (get_or_attribute _ _ "canRunAsynchronuously") in H by (reflexivity || now right).
    rewrite (get_or_attribute _ _ "canHandleVariableCommunicationStepSize") in H
      by (reflexivity || now right).
    apply bind_OK in H as (fmu & Hf & H). inversion H; subst cs. cbn.
    split; [now apply (parseFmuAttributes_modelIdentifier _ content)|repeat split].
  - intros me H. unfold parseModelExchangeAttributes in H.
    rewrite (get_or_attribute _ _ "completedIntegratorStepNotNeeded") in H
      by (reflexivity || now right).
    apply bind_OK in H as (fmu & Hf & H). inversion H; subst me. cbn.
    split; [now apply (parseFmuAttributes_modelIdentifier _ content)|reflexivity].
Qed.

Lemma flavour_attributes_honoured_witness :
  exists cs,
    parseCoSimulationAttributes
      (element_tree [("modelIdentifier", "m"); ("maxOutputDerivativeOrder", "2");
                     ("canInterpolateInputs", "yes"); ("canRunAsynchronuously", "1")] [])
    = OK cs /\
    maxOutputDerivativeOrder cs = 2%Z /\
    canInterpolateInputs cs = false /\
    canRunAsynchronuously cs = true.
Proof.
  eexists. split; [vm_compute; reflexivity|].
  match goal with
  | |- maxOutputDerivativeOrder ?cs = _ /\ _ =>
      destruct (proj1 (flavour_attributes_honoured
                         [("modelIdentifier", "m"); ("maxOutputDerivativeOrder", "2");
                          ("canInterpolateInputs", "yes"); ("canRunAsynchronuously", "1")] []
                         (fun _ _ _ (H : In _ []) => match H with end)) cs)
        as (_ & H1 & H2 & H3 & _); [vm_compute; reflexivity|]
  end.
  rewrite H1, H2, H3. repeat split.
Defined.

(** *** Source files *)

Lemma In_entries_of section entry sa sc ea ec attributes content :
  section <> xmlattr -> section <> xmlcomment -> entry <> xmlattr -> entry <> xmlcomment ->
  In (Element section sa sc) content ->
  In (Element entry ea ec) sc ->
  In (element_tree ea ec)
     (entries_of section entry (children (element_tree attributes content))).
Proof.
  intros H1 H2 H3 H4 Hs He. unfold entries_of.
  rewrite select_element_tree by assumption.
  apply in_flat_map. exists (element_tree sa sc). split.
  - now apply In_elements_named.
  - rewrite select_element_tree by assumption. now apply In_elements_named.
Qed.

(** A [<File>] without a [name] in any [<SourceFiles>] section makes the
    flavour element fail, for both flavours. *)
Theorem source_file_needs_name attributes content sa sc fa fc :
  In (Element "SourceFiles" sa sc) content ->
  In (Element "File" fa fc) sc ->
  names_ok fc ->
  attribute "name" fa = None ->
  (exists e, parseFmuAttributes (element_tree attributes content) = Err e) /\
  (exists e, parseCoSimulationAttributes (element_tree attributes content) = Err e) /\
  (exists e, parseModelExchangeAttributes (element_tree attributes content) = Err e).
Proof.
  intros Hs Hf Hok Hn.
  assert (H : exists e, parseFmuAttributes (element_tree attributes content) = Err e).
  { unfold parseFmuAttributes.
    destruct (get tr_string "<xmlattr>.modelIdentifier" _) as [mi|e]; [|simpl; eauto].
    cbn [bind]. rewrite sourceFiles_loop.
    destruct (mapM_fails parseFile
                (entries_of "SourceFiles" "File" (children (element_tree attributes content)))
                (element_tree fa fc) (ptree_bad_path "<xmlattr>.name")) as [e He].
    - apply (In_entries_of _ _ sa sc); (discriminate || assumption).
    - unfold parseFile. rewrite (get_attribute _ _ "name") by (reflexivity || now right).
      now rewrite Hn.
    - rewrite He. simpl. eauto. }
  destruct H as [e He]. unfold parseCoSimulationAttributes, parseModelExchangeAttributes.
  rewrite He. simpl. repeat split; eauto.
Qed.

Lemma source_file_needs_name_witness :
  exists e,
    parseCoSimulationAttributes
      (element_tree [("modelIdentifier", "m")]
         [Element "SourceFiles" [] [Element "File" [("name", "a.c")] []];
          Element "SourceFiles" [] [Element "File" [] []]]) = Err e.
Proof.
  apply (source_file_needs_name [("modelIdentifier", "m")]
           [Element "SourceFiles" [] [Element "File" [("name", "a.c")] []];
            Element "SourceFiles" [] [Element "File" [] []]] [] [Element "File" [] []] [] []).
  - right. now left.
  - now left.
  - intros ? ? ? [].
  - reflexivity.
Defined.

(** *** Typed attributes *)

Lemma extract_signed_range bits s v rest :
  extract_signed bits s = Some (v, rest) -> (- 2 ^ (bits - 1) <= v < 2 ^ (bits - 1))%Z.
Proof.
  unfold extract_signed.
  destruct (sign (skipws s)) as [neg s1].
  destruct (digits 0 0 s1) as [[x taken] r].
  destruct taken; [discriminate|].
  destruct (_ && _) eqn:E; [|discriminate].
  intros H; inversion H; subst. apply andb_prop in E as [E1 E2].
  apply Z.leb_le in E1. apply Z.ltb_lt in E2. lia.
Qed.

Lemma tr_int_range v z : tr_int v = Some z -> (- 2 ^ 31 <= z < 2 ^ 31)%Z.
Proof.
  unfold tr_int, translate.
  destruct (extract_signed 32 (chars v)) as [[y rest]|] eqn:He; [|discriminate].
  apply extract_signed_range in He.
  destruct (skipws rest); [|discriminate]. intros H; inversion H; subst. exact He.
Qed.

Lemma get_optional_attribute_opt {A} (tr : translator A) path k attributes content :
  fragments path = [xmlattr; k] ->
  attributes <> [] \/ names_ok content ->
  get_optional tr path (element_tree attributes content) = attribute_opt tr k attributes.
Proof. intros Hp Hne. now apply get_optional_attribute. Qed.

Section TypedAttributes.

Context {ext : Externals}.

(** The typed children are read attribute by attribute and never fail: a
    field is the value of its attribute, absent when the attribute is
    missing or its value is not readable, and the three flags of [<Real>]
    default to [false].  An [Integer] or [Enumeration] value that is
    present lies within the 32-bit signed range. *)
Theorem typed_attribute_fields a sub :
  names_ok sub ->
  parseIntegerAttribute (element_tree a sub)
  = {| bounded_base := {| start := attribute_opt tr_int "start" a;
                          declaredType := attribute_opt tr_string "declaredType" a |};
       min := attribute_opt tr_int "min" a;
       max := attribute_opt tr_int "max" a;
       quantity := attribute_opt tr_string "quantity" a |} /\
  parseEnumerationAttribute (element_tree a sub)
  = parseIntegerAttribute (element_tree a sub) /\
  parseStringAttribute (element_tree a sub)
  = {| start := attribute_opt tr_string "start" a;
       declaredType := attribute_opt tr_string "declaredType" a |} /\
  parseBooleanAttribute (element_tree a sub)
  = {| start := attribute_opt tr_bool "start" a;
       declaredType := attribute_opt tr_string "declaredType" a |} /\
  parseRealAttribute (element_tree a sub)
  = {| real_bounded :=
         {| bounded_base := {| start := attribute_opt tr_double "start" a;
                               declaredType := attribute_opt tr_string "declaredType" a |};
            min := attribute_opt tr_double "min" a;
            max := attribute_opt tr_double "max" a;
            quantity := attribute_opt tr_string "quantity" a |};
       nominal := attribute_opt tr_double "nominal" a;
       real_unit := attribute_opt tr_string "unit" a;
       derivative := attribute_opt tr_unsigned "derivative" a;
       reinit := attribute_or tr_bool "reinit" false a;
       unbounded := attribute_or tr_bool "unbounded" false a;
       relativeQuantity := attribute_or tr_bool "relativeQuantity" false a |} /\
  (forall z,
      In (Some z) [attribute_opt tr_int "start" a; attribute_opt tr_int "min" a;
                   attribute_opt tr_int "max" a] ->
      (- 2 ^ 31 <= z < 2 ^ 31)%Z).
Proof.
  intros Hok.
  unfold parseIntegerAttribute, parseEnumerationAttribute, parseStringAttribute,
    parseBooleanAttribute, parseRealAttribute, parseBoundedScalarVariableAttributes,
    parseScalarVariableAttributes.
  rewrite !(get_optional_attribute_opt _ "<xmlattr>.start" "start") by (reflexivity || now right).
  rewrite !(get_optional_attribute_opt _ "<xmlattr>.declaredType" "declaredType") by (reflexivity || now right).
  rewrite !(get_optional_attribute_opt _ "<xmlattr>.min" "min") by (reflexivity || now right).
  rewrite !(get_optional_attribute_opt _ "<xmlattr>.max" "max") by (reflexivity || now right).
  rewrite !(get_optional_attribute_opt _ "<xmlattr>.quantity" "quantity") by (reflexivity || now right).
  rewrite !(get_optional_attribute_opt _ "<xmlattr>.nominal" "nominal") by (reflexivity || now right).
  rewrite !(get_optional_attribute_opt _ "<xmlattr>.unit" "unit") by (reflexivity || now right).
  rewrite !(get_optional_attribute_opt _ "<xmlattr>.derivative" "derivative") by (reflexivity || now right).
  rewrite !(get_or_attribute _ "<xmlattr>.reinit" "reinit") by (reflexivity || now right).
  rewrite !(get_or_attribute _ "<xmlattr>.unbounded" "unbounded") by (reflexivity || now right).
  rewrite !(get_or_attribute _ "<xmlattr>.relativeQuantity" "relativeQuantity") by (reflexivity || now right).
  repeat (split; [reflexivity|]).
  intros z Hz. unfold attribute_opt in Hz.
  repeat (destruct Hz as [Hz|Hz];
          [match type of Hz with
           | match ?m with _ => _ end = _ =>
               destruct m as [v|]; [|discriminate]
           end; now apply tr_int_range in Hz|]).
  contradiction.
Qed.

Lemma parseScalarVariable_scan_base b vs v :
  parseScalarVariable_scan b vs = OK v -> sv_base v = b.
Proof.
  induction vs as [|x vs IH]; simpl; [discriminate|].
  repeat match goal with
         | |- context [String.eqb ?s ?t] => destruct (String.eqb s t)
         end;
    try (intros H; inversion H; reflexivity).
  exact IH.
Qed.

(** The base of a scalar variable that parses carries [name] as written and
    [valueReference] as the 32-bit number written; [description] defaults to
    the empty string; the multiple-set flag is read under the spelling of
    the source; causality, variability and initial are the lexer's images
    of the attributes, of the empty string when an attribute is missing. *)
Theorem scalar_variable_base_fields attributes content v :
  names_ok content ->
  parseScalarVariable (element_tree attributes content) = OK v ->
  attribute "name" attributes = Some (name (sv_base v)) /\
  attribute_opt tr_unsigned "valueReference" attributes = Some (valueReference (sv_base v)) /\
  (0 <= valueReference (sv_base v) < 2 ^ 32)%Z /\
  description (sv_base v) = attribute_or tr_string "description" "" attributes /\
  canHandleMultipleSetPerTimelnstant (sv_base v)
  = attribute_or tr_bool "canHandleMultipleSetPerTimelnstant" false attributes /\
  causality (sv_base v)
  = parseCausality (attribute_or tr_string "causality" "" attributes) /\
  variability (sv_base v)
  = parseVariability (attribute_or tr_string "variability" "" attributes) /\
  initial (sv_base v) = parseInitial (attribute_or tr_string "initial" "" attributes).
Proof.
  intros Hok H. unfold parseScalarVariable in H. apply bind_OK in H as (b & Hb & H).
  apply parseScalarVariable_scan_base in H. rewrite H. clear H v.
  unfold parseScalarVariableBase in Hb.
  rewrite (get_attribute _ _ "name") in Hb by (reflexivity || now right).
  rewrite (get_attribute _ _ "valueReference") in Hb by (reflexivity || now right).
  rewrite (get_or_attribute _ _ "description") in Hb by (reflexivity || now right).
  rewrite (get_or_attribute _ _ "canHandleMultipleSetPerTimelnstant") in Hb
    by (reflexivity || now right).
  rewrite (get_or_attribute _ _ "causality") in Hb by (reflexivity || now right).
  rewrite (get_or_attribute _ _ "variability") in Hb by (reflexivity || now right).
  rewrite (get_or_attribute _ _ "initial") in Hb by (reflexivity || now right).
  unfold tr_string at 1 in Hb. unfold attribute_opt.
  destruct (attribute "name" attributes) as [nm|]; [|discriminate].
  destruct (attribute "valueReference" attributes) as [vr|]; [|discriminate].
  cbn [bind] in Hb.
  destruct (tr_unsigned vr) as [x|] eqn:Hx; [|discriminate].
  inversion Hb. cbn. repeat split; try reflexivity;
    apply (translate_range 32 vr x); (lia || exact Hx).
Qed.

End TypedAttributes.

Lemma typed_attribute_fields_witness :
  parseIntegerAttribute (element_tree [("start", "7"); ("max", "4294967296")] [])
  = {| bounded_base := {| start := Some 7%Z; declaredType := None |};
       min := None; max := None; quantity := None |}.
Proof.
  rewrite (proj1 (typed_attribute_fields (ext := example_externals)
                    [("start", "7"); ("max", "4294967296")] []
                    (fun _ _ _ (H : In _ []) => match H with end))).
  reflexivity.
Defined.

Lemma scalar_variable_base_fields_witness :
  exists v,
    parseScalarVariable (ext := example_externals)
      (element_tree (fst canonical_variable) (snd canonical_variable)) = OK v /\
    description (sv_base v) = "" /\
    causality (sv_base v) = causality_unspecified.
Proof.
  eexists. split; [vm_compute; reflexivity|].
  match goal with
  | |- description (sv_base ?v) = _ /\ _ =>
      destruct (scalar_variable_base_fields (ext := example_externals)
                  (fst canonical_variable) (snd canonical_variable) v)
        as (_ & _ & _ & Hd & _ & Hc & _)
  end.
  - intros nm a sub Hin. simpl in Hin.
    repeat (destruct Hin as [Hin|Hin]; [inversion Hin; reflexivity|]). contradiction.
  - vm_compute. reflexivity.
  - rewrite Hd, Hc. split; reflexivity.
Defined.
